(** * fetch_bitcoin_data.py: the incremental fetch-and-merge pipeline

    A shallow embedding of [src/fetch_bitcoin_data.py]:
    - [get_last_timestamp] and the start of [main] (resume point),
    - the [while] loop of [fetch_coinbase_data] (chunking, retries, the
      request ceiling) as a step function over an explicit loop state,
    - the DataFrame construction that follows the loop (column naming,
      numeric coercion, sort),
    - [update_dataset] (concat, [drop_duplicates], sort, write).

    Conventions.  An instant is a number of microseconds since the Unix epoch
    (the resolution of Python's [datetime]).  A DataFrame is the list of its
    rows, in index order; the CSV file behind a path is the list of rows it
    holds.  The two things the loop cannot know in advance, the wall clock
    and the answers of the provider, are functions of the iteration number. *)

From Stdlib Require Import ZArith List Bool String Lia Sorted Permutation.
Import ListNotations.
Open Scope Z_scope.

(** ** Instants and durations *)

Definition instant := Z.

Definition timedelta (days hours minutes : Z) : Z :=
  ((days * 24 + hours) * 60 + minutes) * 60 * 1000000.

(** Days between 1970-01-01 and the civil date [y]-[m]-[d] (proleptic
    Gregorian calendar), as [datetime] counts them. *)
Definition days_from_civil (y m d : Z) : Z :=
  let y' := if m <=? 2 then y - 1 else y in
  let era := y' / 400 in
  let yoe := y' - era * 400 in
  let mp := if m <=? 2 then m + 9 else m - 3 in
  let doy := (153 * mp + 2) / 5 + d - 1 in
  let doe := yoe * 365 + yoe / 4 - yoe / 100 + doy in
  era * 146097 + doe - 719468.

(** [datetime(y, m, d, hh, mm, tzinfo=timezone.utc)] *)
Definition datetime_utc (y m d hh mm : Z) : instant :=
  days_from_civil y m d * timedelta 1 0 0 + timedelta 0 hh mm.

(** ** Configuration *)

(** [DEFAULT_START_DATE = '2025-01-01'], read by
    [datetime.strptime(..., '%Y-%m-%d').replace(tzinfo=timezone.utc)]. *)
Definition DEFAULT_START_DATE : instant := datetime_utc 2025 1 1 0 0.

Definition MAX_DAYS_PER_RUN : Z := 7.

(** Locals of [fetch_coinbase_data]. *)
Definition chunk_hours : Z := 24.
Definition max_requests : Z := 500.

Section Pipeline.

(** The float64 values of the price and volume columns are kept abstract, and
    so is the parser [pd.to_numeric] applies to a string ([None]: the string
    is not a number). *)
Context {float : Type}.
Variable parse_float : string -> option float.

(** ** Data model *)

(** A cell of a numeric column: a number, or the NaN that
    [errors='coerce'] puts in place of what cannot be parsed. *)
Inductive cell : Type :=
  | Num (x : float)
  | NaN.

(** The columns [timestamp, open, high, low, close, volume, source]. *)
Record row : Type := mkRow {
  timestamp : instant;
  open : cell;
  high : cell;
  low : cell;
  close : cell;
  volume : cell;
  source : string
}.

(** A JSON value in a price or volume slot of a provider record. *)
Inductive json : Type :=
  | JNumber (x : float)
  | JString (s : string)
  | JNull.

(** One provider record, [[ts, low, high, open, close, volume]], by position;
    [ts] is in epoch seconds. *)
Definition candle : Type := (Z * json * json * json * json * json)%type.

(** What is behind a CSV path. *)
Inductive file_state : Type :=
  | Missing                     (* [os.path.exists] is false *)
  | Unreadable                  (* [pd.read_csv] or [pd.to_datetime] raises *)
  | NoTimestampColumn           (* a table without a [timestamp] column *)
  | Table (rows : list row).    (* a table with the seven columns *)

(** ** DataFrame operations *)

(** [df.sort_values('timestamp').reset_index(drop=True)]: rows in
    non-decreasing order of [timestamp].  pandas leaves the order of rows
    with equal timestamps to the sorting algorithm; here they keep their
    relative order.  Nothing below depends on that choice: the properties
    are about order, membership and counts. *)
Fixpoint insert_row (r : row) (l : list row) : list row :=
  match l with
  | [] => [r]
  | x :: l' =>
      if timestamp r <=? timestamp x then r :: l else x :: insert_row r l'
  end.

Definition sort_values (df : list row) : list row :=
  fold_right insert_row [] df.

(** [df.drop_duplicates(subset=['timestamp'], keep='first')]: walking down the
    frame, a row is dropped when its timestamp has been seen on an earlier
    row. *)
Fixpoint drop_seen (seen : list instant) (df : list row) : list row :=
  match df with
  | [] => []
  | r :: df' =>
      if existsb (Z.eqb (timestamp r)) seen
      then drop_seen seen df'
      else r :: drop_seen (timestamp r :: seen) df'
  end.

Definition drop_duplicates (df : list row) : list row := drop_seen [] df.

(** [df['timestamp'].max()] of a frame; [None] on an empty one. *)
Definition max_timestamp (df : list row) : option instant :=
  match df with
  | [] => None
  | r :: df' => Some (fold_left Z.max (map timestamp df') (timestamp r))
  end.

(** ** The store *)

(** [get_last_timestamp(file_path)] *)
Definition get_last_timestamp (f : file_state) : option instant :=
  match f with
  | Missing => None
  | Unreadable => None
  | NoTimestampColumn => None
  | Table df => max_timestamp df
  end.

(** [update_dataset(filename, new_data)].  The result is [None] when the
    function raises; otherwise it is the state of the file afterwards and the
    DataFrame returned. *)
Definition update_dataset (f : file_state) (new_data : list row)
  : option (file_state * list row) :=
  match new_data with
  | [] =>
      match f with
      | Missing => Some (f, [])
      | Table df => Some (f, df)
      | Unreadable | NoTimestampColumn => None
      end
  | _ :: _ =>
      let combined :=
        match f with
        | Missing => Some new_data
        | Table existing => Some (drop_duplicates (existing ++ new_data))
        | Unreadable | NoTimestampColumn => None
        end in
      match combined with
      | Some combined =>
          let combined := sort_values combined in
          Some (Table combined, combined)
      | None => None
      end
  end.

(** The rows on disk after [update_dataset]. *)
Definition persisted (res : option (file_state * list row)) : option (list row) :=
  match res with
  | Some (Table df, _) => Some df
  | _ => None
  end.

(** ** The start of [main] *)

(** [start_dt] of [main], from [last_ts = get_last_timestamp(FILE_COINBASE)]. *)
Definition main_start_dt (f : file_state) : instant :=
  match get_last_timestamp f with
  | Some last_ts => last_ts + timedelta 0 0 5
  | None => DEFAULT_START_DATE
  end.

(** [end_dt] of [main]: now, limited to [MAX_DAYS_PER_RUN] days after
    [start_dt]. *)
Definition main_end_dt (now : instant) (f : file_state) : instant :=
  let max_end := main_start_dt f + timedelta MAX_DAYS_PER_RUN 0 0 in
  if max_end <? now then max_end else now.

(** ** The fetch loop *)

(** How one [requests.get] (and the [response.json()] after a 200) ends. *)
Inductive outcome : Type :=
  | Response (status_code : Z) (body : option (list candle))
      (* [requests.get] returned; [body] is [None] when [response.json()]
         raises *)
  | Timeout   (* [requests.exceptions.Timeout] *)
  | Failed.   (* any other exception out of [requests.get] *)

(** An entry of the request log: the [start] and [end] parameters sent, the
    clock reading of that iteration, and how the request ended.  The log is
    not a variable of the program; it records the calls to [requests.get]. *)
Record request : Type := mkRequest {
  req_start : instant;
  req_end : instant;
  req_now : instant;
  req_outcome : outcome
}.

(** The variables of the [while] loop, the request log and the number of the
    iteration about to run. *)
Record loop_state : Type := mkLoop {
  current : instant;
  request_count : Z;
  all_data : list candle;
  sent : list request;
  iteration : nat
}.

Inductive step : Type :=
  | Next (st : loop_state)    (* back to the loop test *)
  | Exit (st : loop_state).   (* the test failed, or [break] *)

Section Fetch.

(** [clock k] is what [datetime.now(timezone.utc)] returns in iteration [k];
    [provider k s e] is how the request of iteration [k], sent with
    [start = s] and [end = e], ends. *)
Variable clock : nat -> instant.
Variable provider : nat -> instant -> instant -> outcome.

(** The loop test and one run of the loop body. *)
Definition loop_body (end_dt : instant) (st : loop_state) : step :=
  if (current st <? end_dt) && (request_count st <? max_requests) then
    let chunk_end := Z.min (current st + timedelta 0 chunk_hours 0) end_dt in
    let now := clock (iteration st) in
    if now <? current st then Exit st
    else
      let chunk_end := if now <? chunk_end then now else chunk_end in
      let got := provider (iteration st) (current st) chunk_end in
      let sent' := sent st ++ [mkRequest (current st) chunk_end now got] in
      let k' := S (iteration st) in
      match got with
      | Response status_code body =>
          let request_count' := request_count st + 1 in
          if status_code =? 200 then
            match body with
            | Some candles =>
                Next (mkLoop chunk_end request_count'
                        (all_data st ++ candles) sent' k')
            | None =>
                Next (mkLoop chunk_end request_count' (all_data st) sent' k')
            end
          else if status_code =? 429 then
            Next (mkLoop (current st) request_count' (all_data st) sent' k')
          else
            Next (mkLoop chunk_end request_count' (all_data st) sent' k')
      | Timeout =>
          Next (mkLoop (current st) (request_count st) (all_data st) sent' k')
      | Failed =>
          Next (mkLoop chunk_end (request_count st) (all_data st) sent' k')
      end
  else Exit st.

(** At most [n] iterations of the loop from [st]: [Exit] with the final state
    when the loop has ended by then, [Next] with the state reached when it
    is still running. *)
Fixpoint iterate (n : nat) (end_dt : instant) (st : loop_state) : step :=
  match n with
  | O => Next st
  | S n' =>
      match loop_body end_dt st with
      | Exit st' => Exit st'
      | Next st' => iterate n' end_dt st'
      end
  end.

Definition initial (start_dt : instant) : loop_state :=
  mkLoop start_dt 0 [] [] 0.

(** The loop of [fetch_coinbase_data(start_dt, end_dt)], run with [fuel];
    [None] when the loop has not ended within [fuel] iterations. *)
Definition fetch_loop (fuel : nat) (start_dt end_dt : instant)
  : option loop_state :=
  match iterate fuel end_dt (initial start_dt) with
  | Exit st => Some st
  | Next _ => None
  end.

(** ** From the records to the DataFrame *)

(** [pd.to_numeric(col, errors='coerce')] on one value. *)
Definition to_numeric (v : json) : cell :=
  match v with
  | JNumber x => Num x
  | JString s =>
      match parse_float s with
      | Some x => Num x
      | None => NaN
      end
  | JNull => NaN
  end.

(** [pd.to_datetime(ts, unit='s', utc=True)] *)
Definition to_datetime (ts : Z) : instant := ts * 1000000.

(** One row of the frame built from [all_data]: the record is read under the
    column names [['ts', 'low', 'high', 'open', 'close', 'volume']], the five
    numeric columns are coerced, and the columns are taken in the order
    [timestamp, open, high, low, close, volume], with [source] added. *)
Definition normalize (c : candle) : row :=
  let '(ts, c_low, c_high, c_open, c_close, c_volume) := c in
  mkRow (to_datetime ts)
        (to_numeric c_open) (to_numeric c_high) (to_numeric c_low)
        (to_numeric c_close) (to_numeric c_volume)
        "coinbase".

(** The statements of [fetch_coinbase_data] after the loop. *)
Definition build_frame (data : list candle) : list row :=
  match data with
  | [] => []
  | _ :: _ => sort_values (map normalize data)
  end.

(** [fetch_coinbase_data(start_dt, end_dt)] *)
Definition fetch_coinbase_data (fuel : nat) (start_dt end_dt : instant)
  : option (list row) :=
  match fetch_loop fuel start_dt end_dt with
  | Some st => Some (build_frame (all_data st))
  | None => None
  end.

(** The state carried by a [step]. *)
Definition state_of (s : step) : loop_state :=
  match s with
  | Next st => st
  | Exit st => st
  end.

End Fetch.

(** ** [main] *)

(** What [main] touches on disk: whether the directory [DATA_DIR] exists,
    and what is behind the paths [FILE_COINBASE] and [FILE_COMBINED]. *)
Record disk : Type := mkDisk {
  DATA_DIR : bool;
  FILE_COINBASE : file_state;
  FILE_COMBINED : file_state
}.

(** [ensure_data_dir()] *)
Definition ensure_data_dir (d : disk) : disk :=
  if DATA_DIR d then d
  else mkDisk true (FILE_COINBASE d) (FILE_COMBINED d).

(** How a run of [main] ends: it returns an exit code, or an exception
    leaves it; in both cases with the disk as the run left it. *)
Inductive run : Type :=
  | Returned (code : Z) (d : disk)
  | Raised (d : disk).

(** [main()].  [now] is the clock reading that becomes [end_dt]; [clock] and
    [provider] serve the fetch loop.  The result is [None] when the fetch
    loop has not ended within [fuel] iterations. *)
Definition main (now : instant) (clock : nat -> instant)
    (provider : nat -> instant -> instant -> outcome) (fuel : nat)
    (d : disk) : option run :=
  let d := ensure_data_dir d in
  let start_dt := main_start_dt (FILE_COINBASE d) in
  let end_dt := main_end_dt now (FILE_COINBASE d) in
  if end_dt <=? start_dt then Some (Returned 0 d)
  else
    match fetch_coinbase_data clock provider fuel start_dt end_dt with
    | None => None
    | Some new_coinbase =>
        match update_dataset (FILE_COINBASE d) new_coinbase with
        | None => Some (Raised d)
        | Some (f, final_data) =>
            let d := mkDisk (DATA_DIR d) f (FILE_COMBINED d) in
            match final_data with
            | [] => Some (Returned 0 d)
            | _ :: _ =>
                Some (Returned 0 (mkDisk (DATA_DIR d) (FILE_COINBASE d)
                                         (Table final_data)))
            end
        end
    end.

(** ** Vocabulary of the properties *)

(** Rows in non-decreasing order of timestamp: whenever [a] comes before [b],
    [timestamp a <= timestamp b]. *)
Definition ascending (df : list row) : Prop :=
  StronglySorted (fun a b => timestamp a <= timestamp b) df.

(** No two rows share a timestamp. *)
Definition unique_timestamps (df : list row) : Prop :=
  NoDup (map timestamp df).


Definition first_at (t : instant) (df : list row) : option row :=
  find (fun r => timestamp r =? t) df.

(** The requests of a log that ended with a response, of whatever status. *)
Definition responded (q : request) : bool :=
  match req_outcome q with
  | Response _ _ => true
  | Timeout | Failed => false
  end.

(** The log agrees with the run: one entry per iteration begun, the [k]-th
    entry read the clock and was answered by the provider at iteration [k],
    and [request_count] is the number of entries that ended with a
    response. *)
Definition well_logged (clock : nat -> instant)
    (provider : nat -> instant -> instant -> outcome) (st : loop_state)
  : Prop :=
  List.length (sent st) = iteration st /\
  request_count st = Z.of_nat (List.length (filter responded (sent st))) /\
  forall k q, nth_error (sent st) k = Some q ->
    req_now q = clock k /\
    req_outcome q = provider k (req_start q) (req_end q) /\
    req_start q <= req_now q /\
    req_end q <= req_now q.

(** The [start] and [end] parameters of the requests of a log, in order. *)
Definition boundaries (log : list request) : list (instant * instant) :=
  map (fun q => (req_start q, req_end q)) log.

(** An outcome after which the loop moves on to the next chunk: anything but
    a timeout and a 429. *)
Definition advances (o : outcome) : bool :=
  match o with
  | Response status_code _ => negb (status_code =? 429)
  | Timeout => false
  | Failed => true
  end.

(** The candles a request contributes to [all_data]: the body of a 200. *)
Definition payload (q : request) : list candle :=
  match req_outcome q with
  | Response status_code (Some candles) =>
      if status_code =? 200 then candles else []
  | _ => []
  end.

(** The number of chunks of [chunk_hours] hours needed to cover
    [[start_dt, end_dt)], and the chunks: the [i]-th starts [i] spans after
    [start_dt] and ends one span later, or at [end_dt] if that comes first. *)
Definition chunk_count (start_dt end_dt : instant) : nat :=
  Z.to_nat ((end_dt - start_dt + timedelta 0 chunk_hours 0 - 1)
            / timedelta 0 chunk_hours 0).

Definition window_chunks (start_dt end_dt : instant)
  : list (instant * instant) :=
  map (fun i =>
         (start_dt + Z.of_nat i * timedelta 0 chunk_hours 0,
          Z.min (start_dt + (Z.of_nat i + 1) * timedelta 0 chunk_hours 0)
                end_dt))
      (seq 0 (chunk_count start_dt end_dt)).

(** The timestamps of a frame. *)
Definition timestamps (df : list row) : list instant := map timestamp df.

(** Where the loop stands after a request: at the end of the chunk when the
    outcome [advances], at its start again otherwise. *)
Definition next_start (q : request) : instant :=
  if advances (req_outcome q) then req_end q else req_start q.

(** A log that is a chain from [c] to [c']: the first request starts at
    [c], each later one starts where the one before it left the loop, and
    the last one left the loop at [c']. *)
Fixpoint chained (c : instant) (log : list request) (c' : instant) : Prop :=
  match log with
  | [] => c' = c
  | q :: log' => req_start q = c /\ chained (next_start q) log' c'
  end.

(** A request that lies in the window [[start_dt, end_dt)] and spans at most
    [chunk_hours] hours. *)
Definition in_window (start_dt end_dt : instant) (q : request) : Prop :=
  start_dt <= req_start q /\
  req_start q < end_dt /\
  req_start q <= req_end q /\
  req_end q <= end_dt /\
  req_end q - req_start q <= timedelta 0 chunk_hours 0.

(** What holds of the loop state all along a fetch of
    [[start_dt, end_dt)]. *)
Definition fetch_invariant (start_dt end_dt : instant) (st : loop_state)
  : Prop :=
  start_dt <= current st /\
  0 <= request_count st <= max_requests /\
  all_data st = List.concat (map payload (sent st)) /\
  Forall (in_window start_dt end_dt) (sent st) /\
  chained start_dt (sent st) (current st).

End Pipeline.

(** * Sample runs

    Concrete stores, clocks and providers on which the properties below are
    exercised.  Prices are integers here. *)

Module Sample.

(** A parser for unsigned decimal integers, in the place of the float
    parser. *)
Fixpoint digits (s : string) (acc : Z) : option Z :=
  match s with
  | EmptyString => Some acc
  | String c s' =>
      let d := Z.of_nat (Ascii.nat_of_ascii c) - 48 in
      if (0 <=? d) && (d <=? 9) then digits s' (10 * acc + d) else None
  end.

Definition parse_digits (s : string) : option Z :=
  match s with
  | EmptyString => None
  | String _ _ => digits s 0
  end.

(** Midnight UTC of day [d] of January 2025. *)
Definition jan (d : Z) : instant := datetime_utc 2025 1 d 0 0.

(** The provider record and the store row of the candle at [t] with closing
    price [c]. *)
Definition candle_at (t : instant) (c : Z) : @candle Z :=
  (t / 1000000, JNumber 1, JNumber 3, JNumber 2, JNumber c, JNumber 10).

Definition row_at (t : instant) (c : Z) : @row Z :=
  mkRow t (Num 2) (Num 3) (Num 1) (Num c) (Num 10) "coinbase".

(** A clock that reads [t0] in the first iteration and one second more in
    each iteration after it. *)
Definition ticking (t0 : instant) : nat -> instant :=
  fun k => t0 + Z.of_nat k * 1000000.

(** A provider that answers every request with the candles at both ends of
    the chunk, the more recent first. *)
Definition inclusive : nat -> instant -> instant -> @outcome Z :=
  fun _ s e => Response 200 (Some [candle_at e 100; candle_at s 100]).

(** A provider that never answers in time. *)
Definition always_timeout : nat -> instant -> instant -> @outcome Z :=
  fun _ _ _ => Timeout.

(** A provider that answers every request with status 429. *)
Definition always_429 : nat -> instant -> instant -> @outcome Z :=
  fun _ _ _ => Response 429 None.

End Sample.

(** * Properties *)

Section Properties.

Context {float : Type}.
Variable parse_float : string -> option float.

Local Abbreviation row := (@row float).
Local Abbreviation candle := (@candle float).
Local Abbreviation loop_state := (@loop_state float).
Local Abbreviation request := (@request float).

(** ** Sorting *)

Lemma insert_row_perm (r : row) (l : list row) :
  Permutation (insert_row r l) (r :: l).
Proof.
  induction l as [|x l IH]; simpl.
  - apply Permutation_refl.
  - destruct (timestamp r <=? timestamp x).
    + apply Permutation_refl.
    + eapply perm_trans; [apply perm_skip, IH | apply perm_swap].
Qed.

Lemma sort_values_perm (df : list row) : Permutation (sort_values df) df.
Proof.
  induction df as [|r df IH]; simpl.
  - constructor.
  - eapply perm_trans; [apply insert_row_perm | apply perm_skip, IH].
Qed.

Lemma insert_row_ascending (r : row) (l : list row) :
  ascending l -> ascending (insert_row r l).
Proof.
  unfold ascending.
  induction l as [|x l IH]; simpl; intros Hl.
  - repeat constructor.
  - inversion Hl as [|? ? Hl' Hx]; subst.
    destruct (timestamp r <=? timestamp x) eqn:E.
    + apply Z.leb_le in E. constructor; [exact Hl|].
      constructor; [exact E|].
      eapply Forall_impl; [|exact Hx]. intros a Ha. simpl in Ha. lia.
    + apply Z.leb_gt in E. constructor; [apply IH, Hl'|].
      eapply Permutation_Forall;
        [apply Permutation_sym, insert_row_perm|].
      constructor; [lia | exact Hx].
Qed.

Lemma sort_values_ascending (df : list row) : ascending (sort_values df).
Proof.
  induction df as [|r df IH]; simpl.
  - constructor.
  - apply insert_row_ascending, IH.
Qed.

(** Sorting a frame that is in order already leaves it as it is. *)
Lemma sort_values_fixed (df : list row) : ascending df -> sort_values df = df.
Proof.
  unfold ascending.
  induction df as [|r df IH]; intros H; [reflexivity|].
  inversion H as [|? ? Hdf Hr]; subst.
  change (sort_values (r :: df)) with (insert_row r (sort_values df)).
  rewrite (IH Hdf).
  destruct df as [|x df]; [reflexivity|]. simpl.
  inversion Hr as [|? ? Hx _]; subst.
  apply Z.leb_le in Hx. now rewrite Hx.
Qed.

Lemma sort_values_unique (df : list row) :
  unique_timestamps df -> unique_timestamps (sort_values df).
Proof.
  unfold unique_timestamps. intros H.
  eapply Permutation_NoDup; [|exact H].
  apply Permutation_map, Permutation_sym, sort_values_perm.
Qed.

Lemma sort_values_In (df : list row) (r : row) :
  In r (sort_values df) <-> In r df.
Proof.
  split; apply Permutation_in;
    [apply sort_values_perm | apply Permutation_sym, sort_values_perm].
Qed.

(** ** Dropping duplicates *)

Lemma seen_In (t : instant) (seen : list instant) :
  existsb (Z.eqb t) seen = true <-> In t seen.
Proof.
  rewrite existsb_exists. split.
  - intros [x [Hx E]]. apply Z.eqb_eq in E. now subst.
  - intros H. exists t. split; [exact H | apply Z.eqb_refl].
Qed.

Lemma seen_not_In (t : instant) (seen : list instant) :
  existsb (Z.eqb t) seen = false <-> ~ In t seen.
Proof.
  rewrite <- seen_In. destruct (existsb (Z.eqb t) seen); intuition congruence.
Qed.

Lemma drop_seen_In (seen : list instant) (df : list row) (r : row) :
  In r (drop_seen seen df) -> In r df /\ ~ In (timestamp r) seen.
Proof.
  revert seen. induction df as [|x df IH]; simpl; intros seen H; [tauto|].
  destruct (existsb (Z.eqb (timestamp x)) seen) eqn:E.
  - destruct (IH _ H). tauto.
  - apply seen_not_In in E. destruct H as [->|H]; [tauto|].
    destruct (IH _ H) as [H1 H2]. simpl in H2. tauto.
Qed.

Lemma drop_seen_unique (seen : list instant) (df : list row) :
  unique_timestamps (drop_seen seen df).
Proof.
  unfold unique_timestamps. revert seen.
  induction df as [|x df IH]; simpl; intros seen; [constructor|].
  destruct (existsb (Z.eqb (timestamp x)) seen); [apply IH|].
  simpl. constructor; [|apply IH].
  rewrite in_map_iff. intros [r [E H]].
  apply drop_seen_In in H. destruct H as [_ H]. apply H. left. now rewrite E.
Qed.

(** [keep='first']: at a timestamp not seen before, the first row of the
    frame is the first row of what is kept. *)
Lemma drop_seen_first (seen : list instant) (df : list row) (t : instant) :
  ~ In t seen -> first_at t (drop_seen seen df) = first_at t df.
Proof.
  unfold first_at. revert seen.
  induction df as [|x df IH]; simpl; intros seen Ht; [reflexivity|].
  destruct (existsb (Z.eqb (timestamp x)) seen) eqn:E.
  - apply seen_In in E.
    destruct (timestamp x =? t) eqn:Ex; [|now apply IH].
    apply Z.eqb_eq in Ex. subst. contradiction.
  - simpl. destruct (timestamp x =? t) eqn:Ex; [reflexivity|].
    apply Z.eqb_neq in Ex. apply IH. simpl. tauto.
Qed.

Lemma drop_seen_all_seen (seen : list instant) (df : list row) :
  (forall t, In t (map timestamp df) -> In t seen) -> drop_seen seen df = [].
Proof.
  induction df as [|x df IH]; simpl; intros H; [reflexivity|].
  assert (E : existsb (Z.eqb (timestamp x)) seen = true)
    by (apply seen_In, H; now left).
  rewrite E. apply IH. intros t Ht. apply H. now right.
Qed.

(** A frame with distinct timestamps absorbs a batch that brings no new
    timestamp. *)
Lemma drop_seen_absorb (seen : list instant) (df batch : list row) :
  unique_timestamps df ->
  (forall t, In t (map timestamp df) -> ~ In t seen) ->
  (forall t, In t (map timestamp batch) ->
             In t (map timestamp df) \/ In t seen) ->
  drop_seen seen (df ++ batch) = df.
Proof.
  unfold unique_timestamps. revert seen.
  induction df as [|x df IH]; simpl; intros seen Hu Hd Hb.
  - apply drop_seen_all_seen. intros t Ht. destruct (Hb t Ht); tauto.
  - inversion Hu as [|? ? Hx Hu']; subst.
    assert (E : existsb (Z.eqb (timestamp x)) seen = false)
      by (apply seen_not_In, Hd; now left).
    rewrite E. f_equal. apply IH; [exact Hu'| |].
    + intros t Ht [<-|Hs]; [contradiction|]. apply (Hd t); tauto.
    + intros t Ht. simpl. destruct (Hb t Ht) as [[?|?]|?]; tauto.
Qed.

Lemma drop_duplicates_timestamps (df : list row) (t : instant) :
  In t (map timestamp (drop_duplicates df)) <-> In t (map timestamp df).
Proof.
  unfold drop_duplicates. split.
  - rewrite !in_map_iff. intros [r [E H]]. exists r.
    split; [exact E | now apply drop_seen_In in H].
  - intros H.
    assert (Hf : exists e, first_at t df = Some e).
    { unfold first_at. destruct (find (fun r => timestamp r =? t) df) eqn:E;
        [eauto|]. exfalso. apply in_map_iff in H. destruct H as [r [Er Hr]].
      apply (find_none _ _ E) in Hr. rewrite Er, Z.eqb_refl in Hr.
      discriminate. }
    destruct Hf as [e He].
    rewrite <- (drop_seen_first [] df t) in He by (simpl; tauto).
    apply find_some in He. destruct He as [He Et]. apply Z.eqb_eq in Et.
    apply in_map_iff. now exists e.
Qed.

(** ** Rows at a timestamp *)




Lemma first_at_unique (df : list row) (r : row) :
  unique_timestamps df -> In r df -> first_at (timestamp r) df = Some r.
Proof.
  unfold unique_timestamps, first_at.
  induction df as [|x df IH]; simpl; intros Hu Hr; [tauto|].
  inversion Hu as [|? ? Hx Hu']; subst.
  destruct Hr as [->|Hr]; [now rewrite Z.eqb_refl|].
  destruct (timestamp x =? timestamp r) eqn:E; [|now apply IH].
  apply Z.eqb_eq in E. exfalso. apply Hx. rewrite E. now apply in_map.
Qed.

(** ** [update_dataset] *)

Lemma update_dataset_table (existing new_data : list row) :
  new_data <> [] ->
  update_dataset (Table existing) new_data =
  Some (Table (sort_values (drop_duplicates (existing ++ new_data))),
        sort_values (drop_duplicates (existing ++ new_data))).
Proof. destruct new_data; [congruence | reflexivity]. Qed.

Lemma update_dataset_missing (new_data : list row) :
  new_data <> [] ->
  update_dataset Missing new_data =
  Some (Table (sort_values new_data), sort_values new_data).
Proof. destruct new_data; [congruence | reflexivity]. Qed.

(** With a store file in place, what is written is in order and has no
    repeated timestamp, whatever the file and the batch held. *)
Lemma update_dataset_table_invariant (existing new_data : list row) :
  new_data <> [] ->
  exists merged,
    persisted (update_dataset (Table existing) new_data) = Some merged /\
    ascending merged /\ unique_timestamps merged.
Proof.
  intros H. rewrite (update_dataset_table _ _ H). simpl.
  eexists. split; [reflexivity|]. split.
  - apply sort_values_ascending.
  - apply sort_values_unique, drop_seen_unique.
Qed.

(** Without a store file, what is written is the batch in order; it has no
    repeated timestamp when the batch has none. *)
Lemma update_dataset_missing_invariant (new_data : list row) :
  new_data <> [] ->
  exists merged,
    persisted (update_dataset Missing new_data) = Some merged /\
    ascending merged /\
    Permutation merged new_data /\
    (unique_timestamps new_data -> unique_timestamps merged).
Proof.
  intros H. rewrite (update_dataset_missing _ H). simpl.
  eexists. split; [reflexivity|]. split; [apply sort_values_ascending|].
  split; [apply sort_values_perm | apply sort_values_unique].
Qed.

(** Merging a batch a second time into a store file that exists changes
    nothing. *)
Lemma update_dataset_table_idempotent (existing new_data merged : list row) :
  persisted (update_dataset (Table existing) new_data) = Some merged ->
  update_dataset (Table merged) new_data = Some (Table merged, merged).
Proof.
  destruct new_data as [|n new_data].
  - simpl. intros E. now inversion E.
  - set (batch := n :: new_data).
    assert (Hb : batch <> []) by discriminate.
    intros E. rewrite (update_dataset_table _ _ Hb) in E. simpl in E.
    inversion E as [E']. rewrite E'.
    rewrite (update_dataset_table _ _ Hb).
    assert (Hm : drop_duplicates (merged ++ batch) = merged).
    { apply drop_seen_absorb.
      - subst merged. apply sort_values_unique, drop_seen_unique.
      - simpl. tauto.
      - intros t Ht. left. subst merged.
        apply (Permutation_in t
                 (Permutation_map timestamp
                    (Permutation_sym (sort_values_perm _)))).
        apply drop_duplicates_timestamps. rewrite map_app.
        apply in_or_app. now right. }
    rewrite Hm, sort_values_fixed; [reflexivity|].
    subst merged. apply sort_values_ascending.
Qed.


(** ** One iteration of the fetch loop *)

Section Loop.

Variable clock : nat -> instant.
Variable provider : nat -> instant -> instant -> @outcome float.

Lemma loop_body_exit (end_dt : instant) (st st' : loop_state) :
  loop_body clock provider end_dt st = Exit st' -> st' = st.
Proof.
  unfold loop_body.
  destruct ((current st <? end_dt) && (request_count st <? max_requests));
    [|intros H; now inversion H].
  destruct (clock (iteration st) <? current st); [intros H; now inversion H|].
  cbv zeta.
  destruct (provider _ _ _) as [sc [body|]| |];
    try destruct (sc =? 200); try destruct (sc =? 429); discriminate.
Qed.

(** An iteration that goes back to the loop test has sent one request. *)
Lemma loop_body_next (end_dt : instant) (st st' : loop_state) :
  loop_body clock provider end_dt st = Next st' ->
  exists q,
    sent st' = sent st ++ [q] /\
    iteration st' = S (iteration st) /\
    req_start q = current st /\
    req_now q = clock (iteration st) /\
    req_outcome q = provider (iteration st) (req_start q) (req_end q) /\
    req_end q =
      Z.min (Z.min (current st + timedelta 0 chunk_hours 0) end_dt)
            (req_now q) /\
    req_start q <= req_now q /\
    current st < end_dt /\
    request_count st < max_requests /\
    request_count st' = request_count st + (if responded q then 1 else 0) /\
    (req_outcome q = Timeout ->
       current st' = current st /\ all_data st' = all_data st) /\
    (current st' = current st \/ current st' = req_end q).
Proof.
  unfold loop_body.
  destruct (current st <? end_dt) eqn:E1; [|discriminate].
  destruct (request_count st <? max_requests) eqn:E2; [|discriminate].
  destruct (clock (iteration st) <? current st) eqn:E3; [discriminate|].
  apply Z.ltb_lt in E1, E2. apply Z.ltb_ge in E3.
  cbv zeta. simpl andb. cbv iota.
  set (ce := if clock (iteration st) <?
                Z.min (current st + timedelta 0 chunk_hours 0) end_dt
             then clock (iteration st)
             else Z.min (current st + timedelta 0 chunk_hours 0) end_dt).
  assert (Hce : ce = Z.min (Z.min (current st + timedelta 0 chunk_hours 0)
                              end_dt) (clock (iteration st))).
  { unfold ce. destruct (Z.ltb_spec (clock (iteration st))
                 (Z.min (current st + timedelta 0 chunk_hours 0) end_dt)); lia. }
  destruct (provider (iteration st) (current st) ce) as [sc body| |] eqn:Ep.
  - destruct (sc =? 200); [destruct body|destruct (sc =? 429)];
      intros H; inversion H; subst st'; clear H;
      (eexists; unfold responded; cbn [sent iteration current request_count
         all_data req_start req_end req_now req_outcome];
       repeat split; try reflexivity; simpl; try lia; auto;
       try discriminate).
  - intros H; inversion H; subst st'; clear H.
    eexists; unfold responded; cbn [sent iteration current request_count
         all_data req_start req_end req_now req_outcome];
       repeat split; try reflexivity; simpl; try lia; auto.
  - intros H; inversion H; subst st'; clear H.
    eexists; unfold responded; cbn [sent iteration current request_count
         all_data req_start req_end req_now req_outcome];
       repeat split; try reflexivity; simpl; try lia; auto; try discriminate.
Qed.

Lemma loop_body_future (end_dt : instant) (st : loop_state) :
  clock (iteration st) < current st ->
  loop_body clock provider end_dt st = Exit st.
Proof.
  intros H. unfold loop_body.
  destruct ((current st <? end_dt) && (request_count st <? max_requests));
    [|reflexivity].
  apply Z.ltb_lt in H. now rewrite H.
Qed.

(** ** Invariants of the loop *)

Lemma well_logged_initial (start_dt : instant) :
  well_logged clock provider (initial start_dt).
Proof.
  repeat split; try reflexivity;
    destruct k; simpl in H; discriminate.
Qed.

Lemma well_logged_next (end_dt : instant) (st st' : loop_state) :
  well_logged clock provider st ->
  loop_body clock provider end_dt st = Next st' ->
  well_logged clock provider st'.
Proof.
  intros [Hlen [Hcount Hlog]] H.
  apply loop_body_next in H.
  destruct H as [q [Hs [Hi [Hq1 [Hq2 [Hq3 [Hq4 [Hq5 [_ [_ [Hc _]]]]]]]]]]].
  unfold well_logged. rewrite Hs, Hi, Hc.
  rewrite filter_app, !length_app. simpl.
  split; [lia|]. split.
  - destruct (responded q); simpl; lia.
  - intros k q' Hk.
    destruct (Nat.lt_ge_cases k (List.length (sent st))) as [Hlt|Hge].
    + rewrite nth_error_app1 in Hk by exact Hlt. now apply Hlog.
    + rewrite nth_error_app2 in Hk by exact Hge.
      destruct (k - List.length (sent st))%nat as [|j] eqn:Ej.
      * simpl in Hk. inversion Hk; subst q'.
        assert (k = iteration st) as -> by lia.
        repeat split; auto; lia.
      * destruct j; discriminate.
Qed.

Lemma well_logged_iterate (n : nat) (end_dt : instant) (st : loop_state) :
  well_logged clock provider st ->
  well_logged clock provider (state_of (iterate clock provider n end_dt st)).
Proof.
  revert st. induction n as [|n IH]; intros st Hst; [exact Hst|].
  simpl. destruct (loop_body clock provider end_dt st) as [st'|st'] eqn:E.
  - apply IH. eapply well_logged_next; eauto.
  - apply loop_body_exit in E. now subst.
Qed.

(** Once the loop has ended, more fuel changes nothing. *)
Lemma iterate_exit_more (n m : nat) (end_dt : instant) (st st' : loop_state) :
  iterate clock provider n end_dt st = Exit st' ->
  iterate clock provider (n + m) end_dt st = Exit st'.
Proof.
  revert st. induction n as [|n IH]; simpl; intros st; [discriminate|].
  destruct (loop_body clock provider end_dt st); [apply IH | auto].
Qed.


(** While every request times out, nothing moves but the log. *)
Lemma iterate_timeouts (end_dt : instant) (n : nat) (st : loop_state) :
  (forall k s e, provider k s e = Timeout) ->
  (forall k, current st <= clock k) ->
  current st < end_dt ->
  request_count st < max_requests ->
  exists st',
    iterate clock provider n end_dt st = Next st' /\
    current st' = current st /\
    request_count st' = request_count st /\
    all_data st' = all_data st /\
    List.length (sent st') = (List.length (sent st) + n)%nat.
Proof.
  intros Hp Hc He Hr. revert st Hc He Hr.
  induction n as [|n IH]; intros st Hc He Hr.
  - exists st. simpl. repeat split; auto.
  - simpl. destruct (loop_body clock provider end_dt st) as [st1|st1] eqn:E.
    + apply loop_body_next in E.
      destruct E as [q [Hs [_ [_ [_ [Hq [_ [_ [_ [_ [Hcount [Ht _]]]]]]]]]]]].
      rewrite Hp in Hq. destruct (Ht Hq) as [Hcur Hdata].
      unfold responded in Hcount. rewrite Hq in Hcount.
      destruct (IH st1) as [st' [H1 [H2 [H3 [H4 H5]]]]];
        try rewrite Hcur; auto; try lia.
      exists st'. rewrite H1, H2, H3, H4, H5, Hs, length_app. simpl.
      repeat split; auto; lia.
    + exfalso. unfold loop_body in E.
      apply Z.ltb_lt in He, Hr. rewrite He, Hr in E. simpl in E.
      specialize (Hc (iteration st)). apply Z.ltb_ge in Hc. rewrite Hc in E.
      rewrite Hp in E. discriminate.
Qed.

(** A request answered with status 200 moves [current] to the end of the
    chunk. *)
Lemma loop_body_200 (end_dt : instant) (st : loop_state) :
  current st < end_dt ->
  request_count st < max_requests ->
  current st <= clock (iteration st) ->
  (forall s e, exists body, provider (iteration st) s e = Response 200 body) ->
  exists st',
    loop_body clock provider end_dt st = Next st' /\
    current st' =
      Z.min (Z.min (current st + timedelta 0 chunk_hours 0) end_dt)
            (clock (iteration st)) /\
    request_count st' = request_count st + 1 /\
    iteration st' = S (iteration st) /\
    boundaries (sent st') = boundaries (sent st) ++ [(current st, current st')].
Proof.
  intros He Hr Hc Hp.
  destruct (loop_body clock provider end_dt st) as [st'|st'] eqn:E.
  - exists st'. split; [reflexivity|].
    pose proof E as E'. apply loop_body_next in E'.
    destruct E' as [q [Hs [Hi [Hq1 [Hq2 [Hq3 [Hq4 [_ [_ [_ [Hcnt _]]]]]]]]]]].
    destruct (Hp (req_start q) (req_end q)) as [body Hb].
    unfold responded in Hcnt. rewrite Hq3, Hb in Hcnt.
    assert (Hcur : current st' = req_end q).
    { unfold loop_body in E.
      apply Z.ltb_lt in He, Hr. rewrite He, Hr in E. simpl andb in E.
      cbv iota zeta in E. apply Z.ltb_ge in Hc. rewrite Hc in E.
      destruct (Hp (current st)
                  (if clock (iteration st) <?
                      Z.min (current st + timedelta 0 chunk_hours 0) end_dt
                   then clock (iteration st)
                   else Z.min (current st + timedelta 0 chunk_hours 0) end_dt))
        as [body' Hb'].
      rewrite Hb' in E. simpl in E.
      destruct body'; inversion E; subst st'; simpl in *;
        rewrite Hq4, Hq2;
        destruct (Z.ltb_spec (clock (iteration st))
                    (Z.min (current st + timedelta 0 chunk_hours 0) end_dt));
        lia. }
    rewrite Hcur at 1. rewrite Hq4, Hq2.
    repeat split; auto.
    unfold boundaries. rewrite Hs, map_app. simpl.
    now rewrite Hq1, Hcur.
  - exfalso. unfold loop_body in E.
    apply Z.ltb_lt in He, Hr. rewrite He, Hr in E. simpl andb in E.
    cbv iota zeta in E. apply Z.ltb_ge in Hc. rewrite Hc in E.
    destruct (Hp (current st)
                (if clock (iteration st) <?
                    Z.min (current st + timedelta 0 chunk_hours 0) end_dt
                 then clock (iteration st)
                 else Z.min (current st + timedelta 0 chunk_hours 0) end_dt))
      as [body' Hb'].
    rewrite Hb' in E. simpl in E. destruct body'; discriminate.
Qed.

End Loop.

(** ** The request ceiling *)


(** ** The fetch loop: what is requested *)

(** C5 (as amended).  In every iteration, a chunk whose start is strictly
    after the current instant is never requested: the loop ends before any
    request is sent for it, and every request in the log was sent with
    [start <= now] and [end <= now] for the clock reading of its iteration.
    A chunk that starts exactly at the current instant is requested, with
    its end clipped to that instant. *)
Theorem future_data_guard (clock : nat -> instant)
    (provider : nat -> instant -> instant -> @outcome float)
    (end_dt : instant) :
  (forall st, clock (iteration st) < current st ->
     loop_body clock provider end_dt st = Exit st) /\
  (forall n start_dt k q,
     nth_error
       (sent (state_of (iterate clock provider n end_dt (initial start_dt))))
       k = Some q ->
     req_now q = clock k /\ req_start q <= req_now q /\
     req_end q <= req_now q) /\
  (forall st, current st < end_dt -> request_count st < max_requests ->
     clock (iteration st) = current st ->
     exists st' q,
       loop_body clock provider end_dt st = Next st' /\
       sent st' = sent st ++ [q] /\
       req_start q = current st /\ req_end q = current st /\
       req_now q = current st).
Proof.
  split; [|split].
  - intros st. apply loop_body_future.
  - intros n start_dt k q Hk.
    destruct (well_logged_iterate clock provider n end_dt _
                (well_logged_initial clock provider start_dt))
      as [_ [_ Hlog]].
    destruct (Hlog k q Hk) as [H1 [_ [H2 H3]]]. auto.
  - intros st He Hr Hc.
    destruct (loop_body clock provider end_dt st) as [st'|st'] eqn:E.
    + pose proof E as E'. apply loop_body_next in E'.
      destruct E' as [q [Hs [_ [Hq1 [Hq2 [_ [Hq4 _]]]]]]].
      exists st', q. repeat split; auto; [|congruence].
      rewrite Hq4, Hq2, Hc.
      assert (0 < timedelta 0 chunk_hours 0) by reflexivity. lia.
    + exfalso. unfold loop_body in E.
      apply Z.ltb_lt in He, Hr. rewrite He, Hr in E. simpl andb in E.
      cbv iota zeta in E. rewrite Hc, Z.ltb_irrefl in E.
      destruct (provider _ _ _) as [sc [body|]| |];
        try destruct (sc =? 200); try destruct (sc =? 429); discriminate.
Qed.

(** C8.  With the clock at or after 2025-01-03T00:00Z and every request
    answered with status 200, fetching from 2025-01-01T00:00Z to
    2025-01-03T00:00Z sends two requests, for [Jan 1, Jan 2) and
    [Jan 2, Jan 3), and the loop ends. *)
Theorem partition_coverage (clock : nat -> instant)
    (provider : nat -> instant -> instant -> @outcome float) (fuel : nat) :
  (forall k, datetime_utc 2025 1 3 0 0 <= clock k) ->
  (forall k s e, exists body, provider k s e = Response 200 body) ->
  (3 <= fuel)%nat ->
  exists st,
    fetch_loop clock provider fuel
      (datetime_utc 2025 1 1 0 0) (datetime_utc 2025 1 3 0 0) = Some st /\
    boundaries (sent st) =
      [(datetime_utc 2025 1 1 0 0, datetime_utc 2025 1 2 0 0);
       (datetime_utc 2025 1 2 0 0, datetime_utc 2025 1 3 0 0)].
Proof.
  intros Hclock Hp Hfuel.
  assert (J1 : datetime_utc 2025 1 1 0 0 = 1735689600000000) by reflexivity.
  assert (J2 : datetime_utc 2025 1 2 0 0 = 1735776000000000) by reflexivity.
  assert (J3 : datetime_utc 2025 1 3 0 0 = 1735862400000000) by reflexivity.
  assert (D : timedelta 0 chunk_hours 0 = 86400000000) by reflexivity.
  assert (M : max_requests = 500) by reflexivity.
  rewrite J1, J2, J3 in *.
  set (st0 := @initial float 1735689600000000).
  pose proof (Hclock 0%nat) as C0. pose proof (Hclock 1%nat) as C1.
  destruct (loop_body_200 clock provider 1735862400000000 st0)
    as [st1 [E1 [Hc1 [Hr1 [Hi1 Hb1]]]]];
    simpl; try lia; [intros; apply Hp|].
  simpl in Hc1, Hr1, Hi1, Hb1.
  assert (Hc1' : current st1 = 1735776000000000) by lia.
  destruct (loop_body_200 clock provider 1735862400000000 st1)
    as [st2 [E2 [Hc2 [Hr2 [Hi2 Hb2]]]]];
    try rewrite Hi1; try lia; [intros; apply Hp|].
  rewrite Hi1, D in Hc2.
  assert (Hc2' : current st2 = 1735862400000000) by lia.
  assert (E3 : loop_body clock provider 1735862400000000 st2 = Exit st2).
  { unfold loop_body. rewrite Hc2'. now rewrite Z.ltb_irrefl. }
  exists st2. split.
  - unfold fetch_loop. replace fuel with (3 + (fuel - 3))%nat by lia.
    erewrite iterate_exit_more; [reflexivity|].
    simpl. fold st0. now rewrite E1, E2, E3.
  - rewrite Hb2, Hb1, Hc1', Hc2'. reflexivity.
Qed.


(** ** The frame returned by [fetch_coinbase_data] *)

Lemma build_frame_perm (data : list candle) :
  Permutation (build_frame parse_float data) (map (normalize parse_float) data).
Proof.
  destruct data as [|c data]; [constructor|].
  unfold build_frame. apply sort_values_perm.
Qed.

Lemma build_frame_ascending (data : list candle) :
  ascending (build_frame parse_float data).
Proof.
  destruct data as [|c data]; [constructor|].
  unfold build_frame. apply sort_values_ascending.
Qed.

(** C6 (as amended).  For every start and end instant, the rows returned by
    the fetch are in non-decreasing order of timestamp, and they are the
    records received, one row per record: nothing is removed, so two records
    with one timestamp give two rows. *)
Theorem fetch_coinbase_data_ascending (clock : nat -> instant)
    (provider : nat -> instant -> instant -> @outcome float)
    (fuel : nat) (start_dt end_dt : instant) (out : list row) :
  fetch_coinbase_data parse_float clock provider fuel start_dt end_dt
    = Some out ->
  ascending out /\
  exists st,
    fetch_loop clock provider fuel start_dt end_dt = Some st /\
    Permutation out (map (normalize parse_float) (all_data st)) /\
    List.length out = List.length (all_data st).
Proof.
  unfold fetch_coinbase_data.
  destruct (fetch_loop clock provider fuel start_dt end_dt) as [st|];
    [|discriminate].
  intros E. inversion E; subst out. split.
  - apply build_frame_ascending.
  - exists st. split; [reflexivity|]. split.
    + apply build_frame_perm.
    + rewrite (Permutation_length (build_frame_perm _)). apply length_map.
Qed.


(** ** The resume point *)

Lemma fold_max_spec (l : list Z) (a : Z) :
  (fold_left Z.max l a = a \/ In (fold_left Z.max l a) l) /\
  a <= fold_left Z.max l a /\
  (forall x, In x l -> x <= fold_left Z.max l a).
Proof.
  revert a. induction l as [|y l IH]; intros a; simpl.
  - split; [now left|]. split; [lia | tauto].
  - destruct (IH (Z.max a y)) as [H1 [H2 H3]].
    split; [|split].
    + destruct H1 as [H1|H1]; [|tauto]. rewrite H1.
      destruct (Z.max_spec a y) as [[_ ->]|[_ ->]]; tauto.
    + lia.
    + intros x [<-|Hx]; [lia | auto].
Qed.

Lemma max_timestamp_spec (df : list row) (T : instant) :
  In T (map timestamp df) ->
  (forall r, In r df -> timestamp r <= T) ->
  max_timestamp df = Some T.
Proof.
  destruct df as [|r df]; simpl; [tauto|]. intros HT Hmax. f_equal.
  destruct (fold_max_spec (map timestamp df) (timestamp r)) as [H1 [H2 H3]].
  set (m := fold_left Z.max (map timestamp df) (timestamp r)) in *.
  assert (m <= T).
  { destruct H1 as [->|H1]; [apply Hmax; now left|].
    apply in_map_iff in H1. destruct H1 as [x [<- Hx]]. apply Hmax. now right. }
  assert (T <= m) by (destruct HT as [<-|HT]; auto).
  lia.
Qed.

(** C7.  When the store file is readable and not empty and [T] is its
    greatest timestamp, the fetch window starts at [T] plus five minutes;
    when the file is missing, empty, without a [timestamp] column or
    unreadable, it starts at 2025-01-01T00:00Z, the configured default. *)
Theorem resume_start :
  (forall (df : list row) (T : instant),
     In T (map timestamp df) ->
     (forall r, In r df -> timestamp r <= T) ->
     main_start_dt (Table df) = T + 5 * 60 * 1000000) /\
  @main_start_dt float Missing = datetime_utc 2025 1 1 0 0 /\
  @main_start_dt float (Table []) = datetime_utc 2025 1 1 0 0 /\
  @main_start_dt float NoTimestampColumn = datetime_utc 2025 1 1 0 0 /\
  @main_start_dt float Unreadable = datetime_utc 2025 1 1 0 0.
Proof.
  repeat split; try reflexivity.
  intros df T HT Hmax. unfold main_start_dt, get_last_timestamp.
  now rewrite (max_timestamp_spec df T HT Hmax).
Qed.

(** * Further properties of the store *)

(** ** Rows kept by a merge *)

Lemma first_at_In (t : instant) (df : list row) (e : row) :
  first_at t df = Some e -> In e df /\ timestamp e = t.
Proof.
  intros H. apply find_some in H. destruct H as [H E].
  apply Z.eqb_eq in E. tauto.
Qed.

Lemma first_at_None (t : instant) (df : list row) :
  first_at t df = None <-> ~ In t (timestamps df).
Proof.
  unfold first_at, timestamps. split.
  - intros H Hin. apply in_map_iff in Hin. destruct Hin as [r [E Hr]].
    apply (find_none _ _ H) in Hr. rewrite E, Z.eqb_refl in Hr. discriminate.
  - intros H. destruct (find _ df) as [e|] eqn:E; [|reflexivity].
    exfalso. apply find_some in E. destruct E as [He Et].
    apply Z.eqb_eq in Et. apply H. rewrite <- Et. now apply in_map.
Qed.

Lemma first_at_app_split (t : instant) (a b : list row) :
  first_at t (a ++ b) =
  match first_at t a with
  | Some e => Some e
  | None => first_at t b
  end.
Proof.
  unfold first_at. induction a as [|x a IH]; simpl; [reflexivity|].
  destruct (timestamp x =? t); [reflexivity | exact IH].
Qed.

(** The rows that [drop_duplicates] keeps are the rows that are first at
    their timestamp. *)
Lemma drop_duplicates_In (df : list row) (r : row) :
  In r (drop_duplicates df) -> In r df.
Proof. intros H. now apply drop_seen_In in H. Qed.

Lemma drop_duplicates_first (df : list row) (t : instant) :
  first_at t (drop_duplicates df) = first_at t df.
Proof. apply drop_seen_first. simpl. tauto. Qed.

(** On frames without repeated timestamps, [first_at] does not depend on the
    order of the rows. *)
Lemma first_at_perm (t : instant) (a b : list row) :
  unique_timestamps a -> Permutation a b -> first_at t a = first_at t b.
Proof.
  intros Hu Hp.
  assert (Hub : unique_timestamps b).
  { unfold unique_timestamps in *.
    eapply Permutation_NoDup; [apply Permutation_map, Hp | exact Hu]. }
  destruct (first_at t a) as [e|] eqn:E.
  - apply first_at_In in E. destruct E as [He <-].
    symmetry. apply first_at_unique; [exact Hub|].
    eapply Permutation_in; eauto.
  - symmetry. apply first_at_None. apply first_at_None in E.
    intros H. apply E. unfold timestamps in *.
    eapply Permutation_in; [apply Permutation_map, Permutation_sym, Hp|exact H].
Qed.

(** Two frames in order, without repeated timestamps and with the same rows,
    are the same frame. *)
Lemma ascending_unique_perm_eq (a b : list row) :
  ascending a -> ascending b -> unique_timestamps a -> Permutation a b ->
  a = b.
Proof.
  unfold ascending, unique_timestamps. revert b.
  induction a as [|x a IH]; intros b Ha Hb Hu Hp.
  - apply Permutation_nil in Hp. now subst.
  - destruct b as [|y b];
      [apply Permutation_sym, Permutation_nil in Hp; discriminate|].
    inversion Ha as [|? ? Ha' Hx]; subst.
    inversion Hb as [|? ? Hb' Hy]; subst.
    inversion Hu as [|? ? Hnx Hu']; subst.
    assert (Exy : x = y).
    { assert (Hxb : In x (y :: b))
        by (eapply Permutation_in; [exact Hp | now left]).
      assert (Hya : In y (x :: a))
        by (eapply Permutation_in;
            [apply Permutation_sym, Hp | now left]).
      destruct Hxb as [->|Hxb]; [reflexivity|].
      destruct Hya as [->|Hya]; [reflexivity|].
      exfalso. rewrite Forall_forall in Hx, Hy.
      pose proof (Hx _ Hya). pose proof (Hy _ Hxb).
      apply Hnx. replace (timestamp x) with (timestamp y) by lia.
      now apply in_map. }
    subst y. f_equal. apply IH; auto.
    now apply Permutation_cons_inv in Hp.
Qed.

(** Sorting gives the same frame for every order of the same rows, when no
    timestamp is repeated. *)
Lemma sort_values_perm_eq (a b : list row) :
  unique_timestamps a -> Permutation a b -> sort_values a = sort_values b.
Proof.
  intros Hu Hp. apply ascending_unique_perm_eq.
  - apply sort_values_ascending.
  - apply sort_values_ascending.
  - now apply sort_values_unique.
  - eapply perm_trans; [apply sort_values_perm|].
    eapply perm_trans; [exact Hp | apply Permutation_sym, sort_values_perm].
Qed.

Lemma unique_timestamps_NoDup (df : list row) :
  unique_timestamps df -> NoDup df.
Proof. apply NoDup_map_inv. Qed.

(** Two frames without repeated timestamps that have the same first row at
    every timestamp have the same rows. *)
Lemma first_at_ext_perm (a b : list row) :
  unique_timestamps a -> unique_timestamps b ->
  (forall t, first_at t a = first_at t b) -> Permutation a b.
Proof.
  intros Ha Hb H.
  apply NoDup_Permutation; try now apply unique_timestamps_NoDup.
  intros r. split; intros Hr.
  - apply (first_at_unique _ _ Ha) in Hr. rewrite H in Hr.
    now apply first_at_In in Hr.
  - apply (first_at_unique _ _ Hb) in Hr. rewrite <- H in Hr.
    now apply first_at_In in Hr.
Qed.

(** The first row at a timestamp of what is written, with a store file in
    place: the first row at that timestamp of store followed by batch. *)
Lemma merged_first_at (existing batch : list row) (t : instant) :
  first_at t (sort_values (drop_duplicates (existing ++ batch)))
  = first_at t (existing ++ batch).
Proof.
  rewrite <- (drop_duplicates_first (existing ++ batch) t).
  symmetry. apply first_at_perm; [apply drop_seen_unique|].
  apply Permutation_sym, sort_values_perm.
Qed.

Lemma persisted_table (existing batch merged : list row) :
  persisted (update_dataset (Table existing) batch) = Some merged ->
  (batch = [] /\ merged = existing) \/
  (batch <> [] /\
   merged = sort_values (drop_duplicates (existing ++ batch))).
Proof.
  destruct batch as [|n batch]; simpl; intros H; inversion H; subst.
  - now left.
  - right. split; [discriminate | reflexivity].
Qed.

Lemma merged_timestamps (existing batch : list row) (t : instant) :
  In t (timestamps (sort_values (drop_duplicates (existing ++ batch)))) <->
  In t (timestamps existing) \/ In t (timestamps batch).
Proof.
  unfold timestamps. rewrite <- in_app_iff, <- map_app.
  rewrite <- (drop_duplicates_timestamps (existing ++ batch) t).
  split; apply Permutation_in, Permutation_map;
    [apply sort_values_perm | apply Permutation_sym, sort_values_perm].
Qed.

Lemma max_timestamp_inv (df : list row) (T : instant) :
  max_timestamp df = Some T ->
  In T (timestamps df) /\ (forall r, In r df -> timestamp r <= T).
Proof.
  unfold timestamps. destruct df as [|r df]; simpl; [discriminate|].
  intros H. inversion H as [HT]. clear H.
  destruct (fold_max_spec (map timestamp df) (timestamp r)) as [H1 [H2 H3]].
  split; [destruct H1 as [E|E]; [left; now symmetry | now right]|].
  intros x [<-|Hx]; [exact H2|]. apply H3. now apply in_map.
Qed.

(** X1.  With a store file in place and a batch that is not empty,
    [update_dataset] returns the frame it writes, and that frame is in
    non-decreasing order of timestamp without a repeated timestamp, whatever
    order and repetitions the file and the batch had. *)
Theorem merge_existing_store_invariant (existing batch : list row) :
  batch <> [] ->
  exists merged,
    update_dataset (Table existing) batch = Some (Table merged, merged) /\
    ascending merged /\ unique_timestamps merged.
Proof.
  intros H. rewrite (update_dataset_table _ _ H).
  eexists. split; [reflexivity|]. split.
  - apply sort_values_ascending.
  - apply sort_values_unique, drop_seen_unique.
Qed.

(** X2.  A merge neither loses nor invents a timestamp: the timestamps of
    what is written are those of the store file together with those of the
    batch; without a store file, those of the batch. *)
Theorem merge_timestamps_union (existing batch merged : list row) :
  (persisted (update_dataset (Table existing) batch) = Some merged ->
   forall t, In t (timestamps merged) <->
             In t (timestamps existing) \/ In t (timestamps batch)) /\
  (persisted (update_dataset Missing batch) = Some merged ->
   forall t, In t (timestamps merged) <-> In t (timestamps batch)).
Proof.
  split; intros H t.
  - apply persisted_table in H. destruct H as [[-> ->]|[_ ->]].
    + simpl. tauto.
    + apply merged_timestamps.
  - destruct batch as [|n batch]; [discriminate|].
    rewrite update_dataset_missing in H by discriminate.
    cbn [persisted] in H.
    assert (merged = sort_values (n :: batch)) as -> by congruence.
    unfold timestamps.
    split; apply Permutation_in, Permutation_map;
      [apply sort_values_perm | apply Permutation_sym, sort_values_perm].
Qed.

(** X3.  Every row written by a merge is a row of the store file or of the
    batch, and a row of the batch is written exactly when its timestamp is
    not in the store file and it is the first row of the batch at that
    timestamp. *)
Theorem merge_rows_from_inputs (existing batch merged : list row) :
  persisted (update_dataset (Table existing) batch) = Some merged ->
  batch <> [] ->
  (forall r, In r merged -> In r existing \/ In r batch) /\
  (forall r, ~ In (timestamp r) (timestamps existing) ->
     (In r merged <-> first_at (timestamp r) batch = Some r)).
Proof.
  intros H Hb. apply persisted_table in H.
  destruct H as [[-> _]|[_ ->]]; [congruence|]. split.
  - intros r Hr. apply sort_values_In, drop_duplicates_In in Hr.
    now apply in_app_or.
  - intros r Hr.
    assert (Hu : unique_timestamps
                   (sort_values (drop_duplicates (existing ++ batch))))
      by apply sort_values_unique, drop_seen_unique.
    pose proof (merged_first_at existing batch (timestamp r)) as Hf.
    rewrite first_at_app_split in Hf.
    apply first_at_None in Hr. rewrite Hr in Hf. rewrite <- Hf. split.
    + now apply first_at_unique.
    + intros E. now apply first_at_In in E.
Qed.

(** X4.  The number of rows written by a merge is the number of distinct
    timestamps of store file and batch together; the merge drops
    [len(existing) + len(batch)] minus that many rows, never a negative
    number. *)
Theorem merge_row_count (existing batch merged : list row) :
  persisted (update_dataset (Table existing) batch) = Some merged ->
  batch <> [] ->
  List.length merged
    = List.length (nodup Z.eq_dec (timestamps (existing ++ batch))) /\
  (List.length merged <= List.length existing + List.length batch)%nat.
Proof.
  intros H Hb. apply persisted_table in H.
  destruct H as [[-> _]|[_ ->]]; [congruence|].
  assert (E : List.length (sort_values (drop_duplicates (existing ++ batch)))
              = List.length (drop_duplicates (existing ++ batch)))
    by apply Permutation_length, sort_values_perm.
  split.
  - rewrite <- (length_map timestamp).
    apply Permutation_length, NoDup_Permutation.
    + apply sort_values_unique, drop_seen_unique.
    + apply NoDup_nodup.
    + intros t. rewrite nodup_In. unfold timestamps at 1.
      fold (timestamps (sort_values (drop_duplicates (existing ++ batch)))).
      rewrite merged_timestamps. unfold timestamps.
      now rewrite map_app, in_app_iff.
  - rewrite E, <- length_app.
    apply NoDup_incl_length.
    + apply unique_timestamps_NoDup, drop_seen_unique.
    + intros r. apply drop_duplicates_In.
Qed.

(** X5.  With a store file in place, merging the same batch a second time
    writes the file the first merge wrote. *)
Theorem merge_idempotent_existing (existing batch merged : list row) :
  persisted (update_dataset (Table existing) batch) = Some merged ->
  update_dataset (Table merged) batch = Some (Table merged, merged) /\
  persisted (update_dataset (Table merged) batch) = Some merged.
Proof.
  intros H. apply update_dataset_table_idempotent in H.
  rewrite H. split; reflexivity.
Qed.

(** X6.  With a store file in place, merging one batch and then another
    writes what merging the two batches at once, the first before the second,
    writes. *)
Theorem merge_composes (existing batch1 batch2 merged1 : list row) :
  persisted (update_dataset (Table existing) batch1) = Some merged1 ->
  persisted (update_dataset (Table merged1) batch2)
  = persisted (update_dataset (Table existing) (batch1 ++ batch2)).
Proof.
  intros H. apply persisted_table in H.
  destruct H as [[-> ->]|[Hb1 ->]]; [reflexivity|].
  destruct batch2 as [|n2 batch2].
  { rewrite app_nil_r. rewrite (update_dataset_table _ _ Hb1). reflexivity. }
  set (b2 := n2 :: batch2).
  assert (Hb2 : b2 <> []) by discriminate.
  assert (Hb : batch1 ++ b2 <> [])
    by (destruct batch1; [congruence | discriminate]).
  rewrite (update_dataset_table _ _ Hb2), (update_dataset_table _ _ Hb).
  simpl. f_equal.
  apply sort_values_perm_eq; [apply drop_seen_unique|].
  apply first_at_ext_perm; try apply drop_seen_unique.
  intros t. rewrite !drop_duplicates_first.
  rewrite app_assoc, (first_at_app_split t (existing ++ batch1) b2).
  rewrite first_at_app_split. now rewrite merged_first_at.
Qed.

(** X7.  A merge never moves the resume point back: the greatest timestamp
    of the file after the merge is at least the greatest timestamp before
    it, and at least every timestamp of the batch. *)
Theorem merge_resume_point_monotone (existing batch merged : list row)
    (T : instant) :
  get_last_timestamp (Table existing) = Some T ->
  persisted (update_dataset (Table existing) batch) = Some merged ->
  exists T',
    get_last_timestamp (Table merged) = Some T' /\
    T <= T' /\
    (forall r, In r batch -> timestamp r <= T').
Proof.
  intros HT H. simpl in HT.
  apply persisted_table in H. destruct H as [[-> ->]|[_ ->]].
  - exists T. simpl. split; [exact HT|]. split; [lia|]. intros r [].
  - set (merged := sort_values (drop_duplicates (existing ++ batch))).
    apply max_timestamp_inv in HT. destruct HT as [HT _].
    assert (Hin : In T (timestamps merged))
      by (apply merged_timestamps; now left).
    destruct (max_timestamp merged) as [T'|] eqn:E.
    + exists T'. simpl. split; [exact E|].
      apply max_timestamp_inv in E. destruct E as [_ Hmax].
      split.
      * unfold timestamps in Hin. apply in_map_iff in Hin.
        destruct Hin as [x [<- Hx]]. now apply Hmax.
      * intros r Hr.
        assert (Hr' : In (timestamp r) (timestamps merged)).
        { apply merged_timestamps. right. now apply in_map. }
        unfold timestamps in Hr'. apply in_map_iff in Hr'.
        destruct Hr' as [x [<- Hx]]. now apply Hmax.
    + exfalso. destruct merged; [exact Hin | discriminate].
Qed.

(** X8.  Without a store file, a batch that is not empty is written as it
    is, put in non-decreasing order of timestamp: the same rows, as many
    times; the file has a repeated timestamp exactly when the batch has
    one. *)
Theorem merge_first_write (batch : list row) :
  batch <> [] ->
  exists merged,
    update_dataset Missing batch = Some (Table merged, merged) /\
    ascending merged /\
    Permutation merged batch /\
    (unique_timestamps merged <-> unique_timestamps batch).
Proof.
  intros H. rewrite (update_dataset_missing _ H).
  eexists. split; [reflexivity|]. split; [apply sort_values_ascending|].
  split; [apply sort_values_perm|].
  unfold unique_timestamps. split; apply Permutation_NoDup, Permutation_map;
    [apply sort_values_perm | apply Permutation_sym, sort_values_perm].
Qed.


(** ** The chunks of a window *)

Lemma chunk_span_value : timedelta 0 chunk_hours 0 = 86400000000.
Proof. reflexivity. Qed.

Lemma chunk_count_empty (s e : instant) : e <= s -> chunk_count s e = O.
Proof.
  intros H. unfold chunk_count. rewrite chunk_span_value.
  Z.div_mod_to_equations. lia.
Qed.

Lemma chunk_count_step (s e : instant) :
  s < e ->
  chunk_count s e
  = S (chunk_count (Z.min (s + timedelta 0 chunk_hours 0) e) e).
Proof.
  intros H. unfold chunk_count. rewrite chunk_span_value.
  destruct (Z.min_spec (s + 86400000000) e) as [[H1 ->]|[H1 ->]];
    Z.div_mod_to_equations; lia.
Qed.

Lemma chunk_count_positive (s e : instant) (m : nat) :
  chunk_count s e = S m -> s < e.
Proof.
  intros H. destruct (Z.lt_ge_cases s e) as [|Hge]; [assumption|].
  rewrite (chunk_count_empty _ _ Hge) in H. discriminate.
Qed.

Lemma window_chunks_step (s e : instant) :
  s < e ->
  window_chunks s e
  = (s, Z.min (s + timedelta 0 chunk_hours 0) e)
    :: window_chunks (Z.min (s + timedelta 0 chunk_hours 0) e) e.
Proof.
  intros H. unfold window_chunks. rewrite (chunk_count_step _ _ H).
  set (D := timedelta 0 chunk_hours 0).
  assert (HD : 0 < D) by reflexivity.
  cbn [seq map]. rewrite <- seq_shift, map_map. f_equal.
  - unfold instant in *. f_equal; try f_equal; lia.
  - destruct (Z.min_spec (s + D) e) as [[H1 E]|[H1 E]]; rewrite E.
    + apply map_ext. intros i. rewrite Nat2Z.inj_succ.
      unfold instant in *. f_equal; [ring | f_equal; ring].
    + now rewrite (chunk_count_empty e e (Z.le_refl e)).
Qed.

(** ** The window of [main] *)

Lemma main_end_dt_min (now : instant) (f : @file_state float) :
  main_end_dt now f
  = Z.min now (main_start_dt f + timedelta MAX_DAYS_PER_RUN 0 0).
Proof.
  unfold main_end_dt.
  destruct (Z.ltb_spec (main_start_dt f + timedelta MAX_DAYS_PER_RUN 0 0) now);
    lia.
Qed.

Lemma week_value : timedelta MAX_DAYS_PER_RUN 0 0 = 604800000000.
Proof. reflexivity. Qed.

Lemma main_chunk_count (now : instant) (f : @file_state float) :
  main_start_dt f < now ->
  (1 <= chunk_count (main_start_dt f) (main_end_dt now f) <= 7)%nat.
Proof.
  intros H. rewrite main_end_dt_min, week_value.
  unfold chunk_count. rewrite chunk_span_value.
  destruct (Z.min_spec now (main_start_dt f + 604800000000))
    as [[H1 ->]|[H1 ->]]; Z.div_mod_to_equations; lia.
Qed.

(** * Further properties of the fetch loop *)

Section LoopFacts.

Variable clock : nat -> instant.
Variable provider : nat -> instant -> instant -> @outcome float.

(** Where an iteration that sent a request leaves [current] and
    [all_data]. *)
Lemma loop_body_moves (end_dt : instant) (st st' : loop_state) :
  loop_body clock provider end_dt st = Next st' ->
  exists q,
    sent st' = sent st ++ [q] /\
    req_start q = current st /\
    current st' = next_start q /\
    all_data st' = all_data st ++ payload q.
Proof.
  unfold loop_body.
  destruct ((current st <? end_dt) && (request_count st <? max_requests));
    [|discriminate].
  destruct (clock (iteration st) <? current st); [discriminate|].
  cbv zeta.
  set (ce := if clock (iteration st) <?
                Z.min (current st + timedelta 0 chunk_hours 0) end_dt
             then clock (iteration st)
             else Z.min (current st + timedelta 0 chunk_hours 0) end_dt).
  destruct (provider (iteration st) (current st) ce) as [sc body| |] eqn:Ep.
  - destruct (sc =? 200) eqn:E200; [|destruct (sc =? 429) eqn:E429].
    + assert (E : (sc =? 429) = false)
        by (apply Z.eqb_eq in E200; now subst).
      destruct body; intros H; inversion H; subst st'; clear H;
        (eexists; split; [reflexivity|]);
        unfold next_start, payload, advances; simpl;
        rewrite ?E200, ?E; simpl; rewrite ?app_nil_r; auto.
    + intros H; inversion H; subst st'; clear H.
      eexists; split; [reflexivity|].
      unfold next_start, payload, advances; simpl.
      rewrite ?E200, ?E429; simpl. destruct body; rewrite ?app_nil_r; auto.
    + intros H; inversion H; subst st'; clear H.
      eexists; split; [reflexivity|].
      unfold next_start, payload, advances; simpl.
      rewrite ?E200, ?E429; simpl. destruct body; rewrite ?app_nil_r; auto.
  - intros H; inversion H; subst st'; clear H.
    eexists; split; [reflexivity|].
    unfold next_start, payload, advances; simpl. rewrite ?app_nil_r; auto.
  - intros H; inversion H; subst st'; clear H.
    eexists; split; [reflexivity|].
    unfold next_start, payload, advances; simpl. rewrite ?app_nil_r; auto.
Qed.

Lemma chained_snoc (c c' : instant) (log : list request) (q : request) :
  chained c log c' -> req_start q = c' ->
  chained c (log ++ [q]) (next_start q).
Proof.
  revert c. induction log as [|x log IH]; simpl; intros c H Hq.
  - subst c'. split; [exact Hq | reflexivity].
  - destruct H as [Hx H]. split; [exact Hx | now apply IH].
Qed.

Lemma fetch_invariant_initial (start_dt end_dt : instant) :
  fetch_invariant start_dt end_dt (@initial float start_dt).
Proof.
  unfold fetch_invariant, max_requests. simpl.
  repeat split; try lia; constructor.
Qed.

Lemma fetch_invariant_next (start_dt end_dt : instant)
    (st st' : loop_state) :
  fetch_invariant start_dt end_dt st ->
  loop_body clock provider end_dt st = Next st' ->
  fetch_invariant start_dt end_dt st'.
Proof.
  intros [Hs [Hc [Hd [Hw Hch]]]] E.
  pose proof (loop_body_moves _ _ _ E) as [q [Hq0 [Hq1 [Hq2 Hq3]]]].
  apply loop_body_next in E.
  destruct E as [q' [Hs' [_ [Hp1 [_ [_ [Hp4 [Hp5 [Hp6 [Hp7 [Hp8 _]]]]]]]]]]].
  assert (q' = q) as -> by (rewrite Hq0 in Hs'; now apply app_inj_tail in Hs').
  assert (D : 0 < timedelta 0 chunk_hours 0) by reflexivity.
  assert (Hin : in_window start_dt end_dt q)
    by (unfold in_window; rewrite Hp4; repeat split; lia).
  unfold fetch_invariant. rewrite Hq0, Hq2, Hq3, Hp8.
  split; [|split; [|split; [|split]]].
  - unfold next_start, in_window in *. destruct (advances (req_outcome q)); lia.
  - destruct (responded q); lia.
  - rewrite map_app, concat_app, Hd. simpl. now rewrite app_nil_r.
  - apply Forall_app. split; [exact Hw | now constructor].
  - apply (chained_snoc _ (current st)); [exact Hch | exact Hq1].
Qed.

Lemma fetch_invariant_iterate (start_dt end_dt : instant) (n : nat)
    (st : loop_state) :
  fetch_invariant start_dt end_dt st ->
  fetch_invariant start_dt end_dt
    (state_of (iterate clock provider n end_dt st)).
Proof.
  revert st. induction n as [|n IH]; intros st Hst; [exact Hst|].
  simpl. destruct (loop_body clock provider end_dt st) as [st'|st'] eqn:E.
  - apply IH. eapply fetch_invariant_next; eauto.
  - apply loop_body_exit in E. now subst.
Qed.

(** X10.  Every request of a fetch lies inside the window: it starts at or
    after [start_dt] and before [end_dt], ends at or before [end_dt], does
    not end before it starts, and spans at most 24 hours. *)
Theorem requests_in_window (n : nat) (start_dt end_dt : instant)
    (q : request) :
  In q (sent (state_of (iterate clock provider n end_dt (initial start_dt))))
  ->
  start_dt <= req_start q /\
  req_start q < end_dt /\
  req_start q <= req_end q /\
  req_end q <= end_dt /\
  req_end q - req_start q <= 24 * 3600 * 1000000.
Proof.
  intros H.
  destruct (fetch_invariant_iterate start_dt end_dt n _
              (fetch_invariant_initial start_dt end_dt))
    as [_ [_ [_ [Hw _]]]].
  rewrite Forall_forall in Hw. exact (Hw q H).
Qed.

(** X11.  The requests of a fetch form a chain: the first starts at
    [start_dt]; after a timeout or a 429 the next request starts where this
    one started, after any other outcome it starts where this one ended; and
    [current] stands where the last request left it.  [current] never goes
    back before [start_dt]. *)
Theorem requests_chained (n : nat) (start_dt end_dt : instant) :
  let st := state_of (iterate clock provider n end_dt (initial start_dt)) in
  chained start_dt (sent st) (current st) /\ start_dt <= current st.
Proof.
  destruct (fetch_invariant_iterate start_dt end_dt n _
              (fetch_invariant_initial start_dt end_dt))
    as [Hs [_ [_ [_ Hch]]]].
  split; assumption.
Qed.

(** X12.  [request_count] stays between 0 and 500 all along a fetch, so at
    most 500 requests are ever answered. *)
Theorem request_count_bounded (n : nat) (start_dt end_dt : instant) :
  let st := state_of (iterate clock provider n end_dt (initial start_dt)) in
  0 <= request_count st <= 500 /\
  (List.length (filter responded (sent st)) <= 500)%nat.
Proof.
  intros st.
  destruct (fetch_invariant_iterate start_dt end_dt n _
              (fetch_invariant_initial start_dt end_dt))
    as [_ [Hc _]].
  destruct (well_logged_iterate clock provider n end_dt _
              (well_logged_initial clock provider start_dt))
    as [_ [Hr _]].
  fold st in Hc, Hr. unfold max_requests in Hc. split; [exact Hc|]. lia.
Qed.


(** X14.  When [end_dt] is not after [start_dt], the fetch sends no request
    and returns an empty frame. *)
Theorem fetch_empty_window (fuel : nat) (start_dt end_dt : instant) :
  end_dt <= start_dt ->
  fetch_loop clock provider (S fuel) start_dt end_dt
    = Some (initial start_dt) /\
  fetch_coinbase_data parse_float clock provider (S fuel) start_dt end_dt
    = Some [].
Proof.
  intros H.
  assert (E : loop_body clock provider end_dt (@initial float start_dt)
              = Exit (initial start_dt)).
  { unfold loop_body. simpl current.
    apply Z.ltb_ge in H. now rewrite H. }
  unfold fetch_coinbase_data, fetch_loop. simpl iterate. rewrite E.
  split; reflexivity.
Qed.

(** An iteration that passes the loop test and the guard sends a request. *)
Lemma loop_body_runs (end_dt : instant) (st : loop_state) :
  current st < end_dt ->
  request_count st < max_requests ->
  current st <= clock (iteration st) ->
  exists st', loop_body clock provider end_dt st = Next st'.
Proof.
  intros He Hr Hc. unfold loop_body.
  apply Z.ltb_lt in He, Hr. rewrite He, Hr. simpl andb. cbv iota zeta.
  apply Z.ltb_ge in Hc. rewrite Hc.
  destruct (provider _ _ _) as [sc [body|]| |];
    try destruct (sc =? 200); try destruct (sc =? 429); eauto.
Qed.

(** With the clock past the end of the window and no timeout and no 429,
    the loop walks through the chunks of what is left of the window. *)
Lemma iterate_walks_chunks (end_dt : instant) (m : nat) (st : loop_state) :
  (forall k, end_dt <= clock k) ->
  (forall k s e, advances (provider k s e) = true) ->
  chunk_count (current st) end_dt = m ->
  request_count st + Z.of_nat m <= max_requests ->
  exists st',
    iterate clock provider (S m) end_dt st = Exit st' /\
    boundaries (sent st')
    = boundaries (sent st) ++ window_chunks (current st) end_dt.
Proof.
  intros Hclock Hadv. revert st.
  induction m as [|m IH]; intros st Hm Hcount.
  - assert (He : end_dt <= current st).
    { destruct (Z.lt_ge_cases (current st) end_dt) as [Hlt|]; [|assumption].
      rewrite (chunk_count_step _ _ Hlt) in Hm. discriminate. }
    exists st. simpl iterate. unfold loop_body.
    apply Z.ltb_ge in He. rewrite He. simpl.
    unfold window_chunks. rewrite Hm. simpl.
    rewrite app_nil_r. split; reflexivity.
  - pose proof (chunk_count_positive _ _ _ Hm) as Hlt.
    destruct (loop_body_runs end_dt st) as [st1 E1]; try lia.
    { specialize (Hclock (iteration st)). lia. }
    pose proof (loop_body_moves _ _ _ E1) as [q [Hq0 [Hq1 [Hq2 Hq3]]]].
    pose proof E1 as E1'. apply loop_body_next in E1'.
    destruct E1' as [q' [Hs' [_ [_ [Hp2 [Hp3 [Hp4 [_ [_ [_ [Hp8 _]]]]]]]]]]].
    assert (q' = q) as ->
      by (rewrite Hq0 in Hs'; now apply app_inj_tail in Hs').
    assert (Hend : req_end q
                   = Z.min (current st + timedelta 0 chunk_hours 0) end_dt).
    { rewrite Hp4, Hp2. specialize (Hclock (iteration st)). lia. }
    assert (Hcur : current st1
                   = Z.min (current st + timedelta 0 chunk_hours 0) end_dt).
    { rewrite Hq2. unfold next_start. rewrite Hp3, Hadv. exact Hend. }
    destruct (IH st1) as [st' [E' Hb']].
    + rewrite Hcur. rewrite (chunk_count_step _ _ Hlt) in Hm. congruence.
    + rewrite Hp8. destruct (responded q); lia.
    + exists st'. split.
      * change (iterate clock provider (S (S m)) end_dt st)
          with (match loop_body clock provider end_dt st with
                | Exit s => Exit s
                | Next s => iterate clock provider (S m) end_dt s
                end).
        now rewrite E1.
      * rewrite Hb', Hq0. unfold boundaries. rewrite map_app. simpl.
        rewrite (window_chunks_step _ _ Hlt), Hq1, Hend, Hcur.
        now rewrite <- app_assoc.
Qed.


(** X16.  With the clock past the end of the window, no timeout and no 429,
    and a window of at most 500 chunks, the fetch sends one request per
    chunk, in order: the [i]-th request starts [i] times 24 hours after
    [start_dt] and ends 24 hours later, or at [end_dt] for the last one.
    A request that fails or is answered with another status than 200 does
    not stop the walk. *)
Theorem window_partition (fuel : nat) (start_dt end_dt : instant) :
  (forall k, end_dt <= clock k) ->
  (forall k s e, advances (provider k s e) = true) ->
  (chunk_count start_dt end_dt <= 500)%nat ->
  (chunk_count start_dt end_dt < fuel)%nat ->
  exists st,
    fetch_loop clock provider fuel start_dt end_dt = Some st /\
    boundaries (sent st)
    = map (fun i =>
             (start_dt + Z.of_nat i * (24 * 3600 * 1000000),
              Z.min (start_dt + (Z.of_nat i + 1) * (24 * 3600 * 1000000))
                    end_dt))
          (seq 0 (chunk_count start_dt end_dt)) /\
    List.length (sent st) = chunk_count start_dt end_dt.
Proof.
  intros Hclock Hadv Hmax Hfuel.
  destruct (iterate_walks_chunks end_dt (chunk_count start_dt end_dt)
              (initial start_dt) Hclock Hadv eq_refl)
    as [st [E Hb]].
  { simpl. unfold max_requests. lia. }
  exists st. split; [|split].
  - unfold fetch_loop.
    replace fuel with (S (chunk_count start_dt end_dt)
                       + (fuel - S (chunk_count start_dt end_dt)))%nat by lia.
    now rewrite (iterate_exit_more clock provider _ _ _ _ _ E).
  - exact Hb.
  - apply (f_equal (@List.length _)) in Hb. simpl in Hb.
    unfold boundaries, window_chunks in Hb.
    now rewrite !length_map, length_seq in Hb.
Qed.

(** Under a provider that answers 429 to everything, each iteration only
    counts a request, until the ceiling. *)
Lemma iterate_rate_limited (end_dt : instant) (m : nat) (st : loop_state) :
  (forall k s e, exists body, provider k s e = Response 429 body) ->
  (forall k, current st <= clock k) ->
  current st < end_dt ->
  request_count st + Z.of_nat m = max_requests ->
  exists st' tail,
    iterate clock provider (S m) end_dt st = Exit st' /\
    current st' = current st /\
    all_data st' = all_data st /\
    sent st' = sent st ++ tail /\
    List.length tail = m /\
    Forall (fun q => req_start q = current st) tail.
Proof.
  intros Hp. revert st. induction m as [|m IH]; intros st Hc He Hr.
  - exists st, []. simpl iterate. unfold loop_body.
    assert (E : (request_count st <? max_requests) = false)
      by (apply Z.ltb_ge; lia).
    rewrite E, andb_false_r, app_nil_r. repeat split; auto.
  - destruct (loop_body_runs end_dt st) as [st1 E1]; try lia; auto.
    pose proof (loop_body_moves _ _ _ E1) as [q [Hq0 [Hq1 [Hq2 Hq3]]]].
    pose proof E1 as E1'. apply loop_body_next in E1'.
    destruct E1' as [q' [Hs' [_ [_ [_ [Hp3 [_ [_ [_ [_ [Hp8 _]]]]]]]]]]].
    assert (q' = q) as ->
      by (rewrite Hq0 in Hs'; now apply app_inj_tail in Hs').
    destruct (Hp (iteration st) (req_start q) (req_end q)) as [body Hb].
    rewrite Hb in Hp3.
    assert (Hcur : current st1 = current st)
      by (rewrite Hq2; unfold next_start; now rewrite Hp3, Hq1).
    assert (Hdata : all_data st1 = all_data st).
    { rewrite Hq3. unfold payload. rewrite Hp3.
      destruct body; simpl; apply app_nil_r. }
    assert (Hcnt : request_count st1 = request_count st + 1)
      by (rewrite Hp8; unfold responded; now rewrite Hp3).
    destruct (IH st1) as [st' [tail [E' [H1 [H2 [H3 [H4 H5]]]]]]];
      try rewrite Hcur; auto; try lia.
    exists st', (q :: tail). split.
    + change (iterate clock provider (S (S m)) end_dt st)
        with (match loop_body clock provider end_dt st with
              | Exit s => Exit s
              | Next s => iterate clock provider (S m) end_dt s
              end).
      now rewrite E1.
    + rewrite H1, H2, H3, Hcur, Hdata, Hq0, <- app_assoc. simpl.
      repeat split; auto.
      constructor; [exact Hq1|]. now rewrite Hcur in H5.
Qed.

(** X23.  Under a provider that answers 429 to every request, a fetch of a
    window that is not empty sends exactly 500 requests, all of them
    starting at [start_dt], and then returns an empty frame: the ceiling ends
    the retries, and nothing was fetched. *)
Theorem rate_limit_storm (fuel : nat) (start_dt end_dt : instant) :
  (forall k s e, exists body, provider k s e = Response 429 body) ->
  (forall k, start_dt <= clock k) ->
  start_dt < end_dt ->
  (501 <= fuel)%nat ->
  exists st,
    fetch_loop clock provider fuel start_dt end_dt = Some st /\
    List.length (sent st) = 500%nat /\
    Forall (fun q => req_start q = start_dt) (sent st) /\
    current st = start_dt /\
    fetch_coinbase_data parse_float clock provider fuel start_dt end_dt
      = Some [].
Proof.
  intros Hp Hc He Hfuel.
  destruct (iterate_rate_limited end_dt 500 (initial start_dt) Hp)
    as [st [tail [E [H1 [H2 [H3 [H4 H5]]]]]]]; auto.
  assert (E' : fetch_loop clock provider fuel start_dt end_dt = Some st).
  { unfold fetch_loop. replace fuel with (501 + (fuel - 501))%nat by lia.
    now rewrite (iterate_exit_more clock provider _ _ _ _ _ E). }
  simpl in H1, H2, H3, H5.
  exists st. rewrite H3. repeat split; auto.
  unfold fetch_coinbase_data. rewrite E', H2. reflexivity.
Qed.

Lemma chained_lower_bound (c c' : instant) (log : list request) :
  chained c log c' ->
  Forall (fun q => req_start q <= req_end q) log ->
  c <= c' /\ forall q, In q log -> c <= req_start q.
Proof.
  revert c. induction log as [|x log IH]; simpl; intros c H Hf.
  - split; [lia | tauto].
  - destruct H as [Hx H]. inversion Hf as [|? ? Hx' Hf']; subst.
    destruct (IH _ H Hf') as [H1 H2].
    assert (req_start x <= next_start x)
      by (unfold next_start; destruct (advances _); lia).
    split; [lia|]. intros q [<-|Hq]; [lia|].
    specialize (H2 q Hq). lia.
Qed.

Lemma chained_pairs (c c' : instant) (log : list request) :
  chained c log c' ->
  Forall (fun q => req_start q <= req_end q) log ->
  forall i j qi qj,
    nth_error log i = Some qi -> nth_error log j = Some qj ->
    (i < j)%nat -> next_start qi <= req_start qj.
Proof.
  revert c. induction log as [|x log IH]; intros c H Hf i j qi qj Hi Hj Hij.
  - destruct i; discriminate.
  - destruct H as [Hx H]. inversion Hf as [|? ? Hx' Hf']; subst.
    destruct j as [|j]; [lia|]. simpl in Hj.
    destruct i as [|i].
    + simpl in Hi. inversion Hi; subst qi.
      destruct (chained_lower_bound _ _ _ H Hf') as [_ Hlb].
      apply Hlb. eapply nth_error_In; eauto.
    + simpl in Hi. eapply (IH _ H Hf' i j); eauto. lia.
Qed.

(** X24.  The loop never goes back: a later request starts no earlier than
    an earlier one, and once a request has ended with anything but a timeout
    or a 429, every later request starts at or after its end.  So a chunk
    that failed or was answered with an error status is not asked for
    again in the same fetch. *)
Theorem requests_never_go_back (n : nat) (start_dt end_dt : instant)
    (i j : nat) (qi qj : request) :
  nth_error
    (sent (state_of (iterate clock provider n end_dt (initial start_dt))))
    i = Some qi ->
  nth_error
    (sent (state_of (iterate clock provider n end_dt (initial start_dt))))
    j = Some qj ->
  (i < j)%nat ->
  req_start qi <= req_start qj /\
  (advances (req_outcome qi) = true -> req_end qi <= req_start qj).
Proof.
  intros Hi Hj Hij.
  destruct (fetch_invariant_iterate start_dt end_dt n _
              (fetch_invariant_initial start_dt end_dt))
    as [_ [_ [_ [Hw Hch]]]].
  assert (Hf : Forall (fun q : request => req_start q <= req_end q)
                 (sent (state_of (iterate clock provider n end_dt
                                    (initial start_dt))))).
  { eapply Forall_impl; [|exact Hw]. intros q Hq. apply Hq. }
  pose proof (chained_pairs _ _ _ Hch Hf i j qi qj Hi Hj Hij) as H.
  rewrite Forall_forall in Hf.
  pose proof (Hf qi (nth_error_In _ _ Hi)) as Hqi.
  unfold next_start in H. split.
  - destruct (advances (req_outcome qi)); lia.
  - intros Ha. now rewrite Ha in H.
Qed.

End LoopFacts.

(** * Properties of [main] *)

Section MainFacts.

Variable clock : nat -> instant.
Variable provider : nat -> instant -> instant -> @outcome float.

Lemma ensure_data_dir_files (d : @disk float) :
  DATA_DIR (ensure_data_dir d) = true /\
  FILE_COINBASE (ensure_data_dir d) = FILE_COINBASE d /\
  FILE_COMBINED (ensure_data_dir d) = FILE_COMBINED d.
Proof.
  unfold ensure_data_dir. destruct (DATA_DIR d) eqn:E; simpl; auto.
Qed.

Lemma max_timestamp_ge (df : list row) (t : instant) :
  In t (timestamps df) ->
  exists T, max_timestamp df = Some T /\ t <= T.
Proof.
  intros H. destruct (max_timestamp df) as [T|] eqn:E.
  - exists T. split; [reflexivity|].
    apply max_timestamp_inv in E. destruct E as [_ Hmax].
    unfold timestamps in H. apply in_map_iff in H.
    destruct H as [r [<- Hr]]. now apply Hmax.
  - destruct df; [destruct H | discriminate].
Qed.

(** X17.  When the start of the window is not before the current instant,
    that is when the store is up to date, [main] returns 0 without fetching
    for every clock, provider and fuel; the two files are as they were, and
    the data directory exists. *)
Theorem main_up_to_date (now : instant) (fuel : nat) (d : disk) :
  now <= main_start_dt (FILE_COINBASE d) ->
  exists d',
    main parse_float now clock provider fuel d = Some (Returned 0 d') /\
    DATA_DIR d' = true /\
    FILE_COINBASE d' = FILE_COINBASE d /\
    FILE_COMBINED d' = FILE_COMBINED d.
Proof.
  intros H. exists (ensure_data_dir d).
  destruct (ensure_data_dir_files d) as [Hd [Hc Hm]].
  split; [|auto]. unfold main. rewrite Hc.
  assert (E : (main_end_dt now (FILE_COINBASE d)
               <=? main_start_dt (FILE_COINBASE d)) = true).
  { apply Z.leb_le. rewrite main_end_dt_min, week_value. lia. }
  now rewrite E.
Qed.

(** X18.  When [main] does fetch, its window starts at the resume start,
    ends after it, at the current instant or seven days after the start,
    whichever comes first, and so has between one and seven chunks. *)
Theorem main_window_bounds (now : instant) (f : @file_state float) :
  main_start_dt f < now ->
  main_start_dt f < main_end_dt now f /\
  main_end_dt now f <= now /\
  main_end_dt now f - main_start_dt f <= 7 * 24 * 3600 * 1000000 /\
  (main_end_dt now f = now \/
   main_end_dt now f = main_start_dt f + 7 * 24 * 3600 * 1000000) /\
  (1 <= chunk_count (main_start_dt f) (main_end_dt now f) <= 7)%nat.
Proof.
  intros H. pose proof (main_chunk_count now f H) as Hc.
  rewrite main_end_dt_min, week_value in Hc |- *.
  repeat split; lia.
Qed.

(** X19.  With a clock that does not go back behind the reading taken for
    [end_dt], and a provider that neither times out nor answers 429, a run
    of [main] that has something to fetch ends within 8 iterations of the
    loop: it sends between one and seven requests, the chunks of its
    window, none of them cut short by the clock. *)
Theorem main_walks_window (now : instant) (fuel : nat) (d : disk) :
  (forall k, now <= clock k) ->
  (forall k s e, advances (provider k s e) = true) ->
  main_start_dt (FILE_COINBASE d) < now ->
  (8 <= fuel)%nat ->
  exists st r,
    fetch_loop clock provider fuel (main_start_dt (FILE_COINBASE d))
      (main_end_dt now (FILE_COINBASE d)) = Some st /\
    boundaries (sent st)
    = window_chunks (main_start_dt (FILE_COINBASE d))
        (main_end_dt now (FILE_COINBASE d)) /\
    (1 <= List.length (sent st) <= 7)%nat /\
    main parse_float now clock provider fuel d = Some r.
Proof.
  intros Hclock Hadv Hstart Hfuel.
  pose proof (main_chunk_count now _ Hstart) as Hc.
  set (s := main_start_dt (FILE_COINBASE d)) in *.
  set (e := main_end_dt now (FILE_COINBASE d)) in *.
  destruct (iterate_walks_chunks clock provider e (chunk_count s e)
              (initial s)) as [st [Ei Hb]]; auto.
  { intros k. specialize (Hclock k). unfold e. rewrite main_end_dt_min. lia. }
  { simpl. unfold max_requests. lia. }
  assert (E : fetch_loop clock provider fuel s e = Some st).
  { unfold fetch_loop.
    replace fuel with (S (chunk_count s e) + (fuel - S (chunk_count s e)))%nat
      by lia.
    now rewrite (iterate_exit_more clock provider _ _ _ _ _ Ei). }
  simpl in Hb.
  assert (Hl : List.length (sent st) = chunk_count s e).
  { apply (f_equal (@List.length _)) in Hb.
    unfold boundaries, window_chunks in Hb.
    now rewrite !length_map, length_seq in Hb. }
  exists st.
  destruct (ensure_data_dir_files d) as [_ [Hco _]].
  assert (Hr : exists r, main parse_float now clock provider fuel d = Some r).
  { unfold main. rewrite Hco. fold s e.
    destruct (e <=? s); [eauto|].
    unfold fetch_coinbase_data. rewrite E.
    destruct (update_dataset (FILE_COINBASE d)
                (build_frame parse_float (all_data st)))
      as [[f [|r0 final]]|]; eauto. }
  destruct Hr as [r Hr]. exists r. repeat split; auto; lia.
Qed.

Lemma sort_values_nil (df : list row) : sort_values df = [] -> df = [].
Proof.
  intros H. pose proof (sort_values_perm df) as Hp. rewrite H in Hp.
  now apply Permutation_nil in Hp.
Qed.

Lemma drop_duplicates_nil (df : list row) :
  drop_duplicates df = [] -> df = [].
Proof. destruct df; [reflexivity | discriminate]. Qed.

(** What [update_dataset] returns is what the file holds afterwards: an
    empty frame leaves the file as it was, any other frame is the file. *)
Lemma update_dataset_result (f f' : file_state) (new_data final : list row) :
  update_dataset f new_data = Some (f', final) ->
  (final = [] /\ f' = f /\ new_data = []) \/
  (final <> [] /\ f' = Table final).
Proof.
  destruct new_data as [|n new_data].
  - destruct f as [| | |df]; simpl; intros H; inversion H; subst; auto.
    destruct final; [auto | right; split; [discriminate | reflexivity]].
  - set (batch := n :: new_data).
    assert (Hb : batch <> []) by discriminate.
    destruct f as [| | |df]; try discriminate.
    + rewrite (update_dataset_missing _ Hb). intros H.
      assert (Ef : final = sort_values batch) by congruence.
      assert (Ef' : f' = Table (sort_values batch)) by congruence.
      right. rewrite Ef', Ef. split; [|reflexivity].
      intros E. now apply sort_values_nil in E.
    + rewrite (update_dataset_table _ _ Hb). intros H.
      assert (Ef : final = sort_values (drop_duplicates (df ++ batch)))
        by congruence.
      assert (Ef' : f' = Table (sort_values (drop_duplicates (df ++ batch))))
        by congruence.
      right. rewrite Ef', Ef. split; [|reflexivity].
      intros E. apply sort_values_nil, drop_duplicates_nil in E.
      destruct df; discriminate.
Qed.

(** X20.  When [main] returns, it returns 0 and the data directory exists.
    Either it wrote nothing, or [FILE_COINBASE] holds a table that is not
    empty and [FILE_COMBINED] holds the same table. *)
Theorem main_mirror (now : instant) (fuel : nat) (d d' : disk) (code : Z) :
  main parse_float now clock provider fuel d = Some (Returned code d') ->
  code = 0 /\
  DATA_DIR d' = true /\
  ((FILE_COINBASE d' = FILE_COINBASE d /\
    FILE_COMBINED d' = FILE_COMBINED d) \/
   exists df,
     df <> [] /\ FILE_COINBASE d' = Table df /\ FILE_COMBINED d' = Table df).
Proof.
  destruct (ensure_data_dir_files d) as [Hd [Hc Hm]].
  unfold main.
  destruct (main_end_dt now (FILE_COINBASE (ensure_data_dir d))
            <=? main_start_dt (FILE_COINBASE (ensure_data_dir d))).
  { intros H. inversion H; subst. auto. }
  destruct (fetch_coinbase_data parse_float clock provider fuel _ _)
    as [new_coinbase|]; [|discriminate].
  destruct (update_dataset (FILE_COINBASE (ensure_data_dir d)) new_coinbase)
    as [[f final]|] eqn:E; [|discriminate].
  apply update_dataset_result in E.
  destruct E as [[-> [-> _]]|[Hne ->]].
  - intros H. inversion H; subst. simpl. auto.
  - destruct final as [|r final]; [congruence|].
    intros H. inversion H; subst. simpl.
    repeat split; auto. right. eexists. repeat split; auto.
Qed.

(** X21.  A store file that cannot be read, or that has no [timestamp]
    column, makes the run start from the default date as if there were no
    file; but when the fetch then returns rows, [update_dataset] raises on
    that file, [main] ends with the exception and both files are as they
    were. *)
Theorem main_raises_on_bad_store (now : instant) (fuel : nat) (d : disk)
    (new_coinbase : list row) :
  FILE_COINBASE d = Unreadable \/ FILE_COINBASE d = NoTimestampColumn ->
  DEFAULT_START_DATE < now ->
  fetch_coinbase_data parse_float clock provider fuel DEFAULT_START_DATE
    (Z.min now (DEFAULT_START_DATE + 7 * 24 * 3600 * 1000000))
    = Some new_coinbase ->
  new_coinbase <> [] ->
  main_start_dt (FILE_COINBASE d) = DEFAULT_START_DATE /\
  exists d',
    main parse_float now clock provider fuel d = Some (Raised d') /\
    FILE_COINBASE d' = FILE_COINBASE d /\
    FILE_COMBINED d' = FILE_COMBINED d.
Proof.
  intros Hf Hnow Hfetch Hne.
  destruct (ensure_data_dir_files d) as [Hd [Hc Hm]].
  assert (Hs : main_start_dt (FILE_COINBASE d) = DEFAULT_START_DATE)
    by (destruct Hf as [-> | ->]; reflexivity).
  split; [exact Hs|]. exists (ensure_data_dir d). split; [|auto].
  unfold main. rewrite Hc, main_end_dt_min, Hs, week_value.
  change (7 * 24 * 3600 * 1000000) with 604800000000 in Hfetch.
  assert (E : (Z.min now (DEFAULT_START_DATE + 604800000000)
               <=? DEFAULT_START_DATE) = false) by (apply Z.leb_gt; lia).
  rewrite E, Hfetch.
  destruct new_coinbase as [|r new_coinbase]; [congruence|].
  destruct Hf as [-> | ->]; reflexivity.
Qed.

(** X22.  A run of [main] that returns on a readable store file leaves a
    readable store file that still has every timestamp it had, and its
    resume point has not moved back: the next run starts no earlier than
    this one did. *)
Theorem main_keeps_timestamps (now : instant) (fuel : nat) (d d' : disk)
    (existing : list row) (code : Z) :
  FILE_COINBASE d = Table existing ->
  main parse_float now clock provider fuel d = Some (Returned code d') ->
  exists df,
    FILE_COINBASE d' = Table df /\
    (forall t, In t (timestamps existing) -> In t (timestamps df)) /\
    (forall T, get_last_timestamp (Table existing) = Some T ->
       exists T',
         get_last_timestamp (Table df) = Some T' /\ T <= T' /\
         main_start_dt (Table existing) <= main_start_dt (Table df)).
Proof.
  intros Hf H.
  assert (Hdf : exists df, FILE_COINBASE d' = Table df /\
            forall t, In t (timestamps existing) -> In t (timestamps df)).
  { destruct (ensure_data_dir_files d) as [_ [Hc _]].
    unfold main in H. rewrite Hc, Hf in H.
    destruct (main_end_dt now (Table existing)
              <=? main_start_dt (Table existing)).
    { inversion H; subst. exists existing. rewrite Hc. auto. }
    destruct (fetch_coinbase_data parse_float clock provider fuel _ _)
      as [new_coinbase|]; [|discriminate].
    destruct new_coinbase as [|n new_coinbase].
    - simpl in H. destruct existing; inversion H; subst; simpl; eauto.
    - set (batch := n :: new_coinbase) in *.
      assert (Hb : batch <> []) by discriminate.
      rewrite (update_dataset_table _ _ Hb) in H.
      destruct (sort_values (drop_duplicates (existing ++ batch)))
        as [|r final] eqn:E.
      + apply sort_values_nil, drop_duplicates_nil in E.
        destruct existing; discriminate.
      + inversion H; subst. simpl. eexists. split; [reflexivity|].
        intros t Ht. rewrite <- E. apply merged_timestamps. now left. }
  destruct Hdf as [df [Hd' Hin]]. exists df.
  split; [exact Hd'|]. split; [exact Hin|].
  intros T HT. simpl in HT.
  pose proof (max_timestamp_inv _ _ HT) as [HTin _].
  destruct (max_timestamp_ge df T (Hin _ HTin)) as [T' [E' Hle]].
  exists T'. simpl. split; [exact E'|]. split; [exact Hle|].
  unfold main_start_dt. simpl. rewrite HT, E'. lia.
Qed.

(** X25.  A run of [main] that resumes from a store whose greatest timestamp
    is [T] asks for nothing before [T] plus five minutes: every request of
    its fetch starts at or after that instant, and ends at or before the
    clock reading taken for [end_dt]. *)
Theorem main_requests_after_resume (now : instant) (n : nat)
    (d : @disk float) (T : instant) (q : request) :
  get_last_timestamp (FILE_COINBASE d) = Some T ->
  In q (sent (state_of
               (iterate clock provider n
                  (main_end_dt now (FILE_COINBASE d))
                  (initial (main_start_dt (FILE_COINBASE d)))))) ->
  T + 5 * 60 * 1000000 <= req_start q /\
  req_end q <= now /\
  req_end q <= T + 5 * 60 * 1000000 + 7 * 24 * 3600 * 1000000.
Proof.
  intros HT Hq.
  destruct (fetch_invariant_iterate clock provider
              (main_start_dt (FILE_COINBASE d))
              (main_end_dt now (FILE_COINBASE d)) n _
              (fetch_invariant_initial _ _))
    as [_ [_ [_ [Hw _]]]].
  rewrite Forall_forall in Hw. destruct (Hw q Hq) as [H1 [_ [_ [H4 _]]]].
  rewrite main_end_dt_min, week_value in H4.
  unfold main_start_dt in H1, H4. rewrite HT in H1, H4.
  change (timedelta 0 0 5) with (5 * 60 * 1000000) in H1, H4.
  repeat split; lia.
Qed.

End MainFacts.

End Properties.

(** * The properties on the sample runs *)

Import Sample.

(** The candles the [inclusive] provider returns for 1 to 3 January: the
    candle of 2 January closes the first chunk and opens the second. *)
Lemma inclusive_fetch :
  fetch_coinbase_data parse_digits (ticking (jan 10)) inclusive 3
    (jan 1) (jan 3)
  = Some [row_at (jan 1) 100; row_at (jan 2) 100;
          row_at (jan 2) 100; row_at (jan 3) 100].
Proof. vm_compute. reflexivity. Qed.



(** C2 on a first run.  There is no store file and the batch is what the
    fetch returned from the [inclusive] provider: [update_dataset] writes the
    batch as it is, and the file holds two rows at 2 January. *)
Theorem first_write_keeps_duplicates :
  exists batch,
    fetch_coinbase_data parse_digits (ticking (jan 10)) inclusive 3
      (jan 1) (jan 3) = Some batch /\
    batch <> [] /\
    persisted (update_dataset Missing batch) = Some batch /\
    ascending batch /\
    ~ unique_timestamps batch.
Proof.
  eexists. split; [apply inclusive_fetch|].
  split; [discriminate|]. split; [vm_compute; reflexivity|]. split.
  - assert (E : [row_at (jan 1) 100; row_at (jan 2) 100;
                 row_at (jan 2) 100; row_at (jan 3) 100]
                = sort_values [row_at (jan 3) 100; row_at (jan 2) 100;
                               row_at (jan 2) 100; row_at (jan 1) 100])
      by (vm_compute; reflexivity).
    rewrite E. apply sort_values_ascending.
  - unfold unique_timestamps. simpl. intros H.
    apply NoDup_cons_iff in H. destruct H as [_ H].
    apply NoDup_cons_iff in H. destruct H as [H _].
    apply H. now left.
Qed.

(** C3 on a first run.  With no store file and the same batch, the first
    merge writes four rows; merging the batch again into that file writes
    three. *)
Theorem second_merge_changes_first_write :
  exists batch once twice,
    fetch_coinbase_data parse_digits (ticking (jan 10)) inclusive 3
      (jan 1) (jan 3) = Some batch /\
    persisted (update_dataset Missing batch) = Some once /\
    persisted (update_dataset (Table once) batch) = Some twice /\
    List.length once = 4%nat /\
    List.length twice = 3%nat /\
    once <> twice.
Proof.
  eexists. exists [row_at (jan 1) 100; row_at (jan 2) 100;
                   row_at (jan 2) 100; row_at (jan 3) 100].
  exists [row_at (jan 1) 100; row_at (jan 2) 100; row_at (jan 3) 100].
  split; [apply inclusive_fetch|].
  repeat split; try (vm_compute; reflexivity).
  intros H. apply (f_equal (@List.length _)) in H. discriminate H.
Qed.

(** C4 under timeouts.  Against a provider that never answers in time, the
    loop has not ended after [n] iterations, whatever [n]: it has sent [n]
    requests, [request_count] is still 0 and [current] is still the start of
    the window.  The fetch returns with no amount of fuel. *)
Theorem timeouts_never_end (n : nat) :
  fetch_coinbase_data parse_digits (ticking (jan 10)) always_timeout n
    (jan 1) (jan 3) = None /\
  exists st,
    iterate (ticking (jan 10)) always_timeout n (jan 3) (initial (jan 1))
      = Next st /\
    List.length (sent st) = n /\
    request_count st = 0 /\
    current st = jan 1.
Proof.
  destruct (iterate_timeouts (ticking (jan 10)) always_timeout (jan 3) n
              (initial (jan 1)))
    as [st [E [Hc [Hr [_ Hl]]]]].
  - reflexivity.
  - intros k. unfold ticking. simpl current.
    assert (jan 1 <= jan 10) by (vm_compute; discriminate). lia.
  - reflexivity.
  - reflexivity.
  - split.
    + unfold fetch_coinbase_data, fetch_loop. now rewrite E.
    + exists st. repeat split; auto.
Qed.

(** The clock reads exactly the start of the window: the first request is
    sent, for a chunk whose start is not before the current instant. *)
Lemma chunk_starting_now_is_requested :
  exists q,
    sent (state_of (iterate (ticking (jan 1)) inclusive 1 (jan 3)
                      (initial (jan 1)))) = [q] /\
    req_start q = jan 1 /\ req_now q = jan 1 /\
    req_now q <= req_start q.
Proof.
  eexists. split; [vm_compute; reflexivity|].
  repeat split. vm_compute. discriminate.
Qed.

Lemma future_data_guard_witness :
  exists q,
    nth_error
      (sent (state_of (iterate (ticking (jan 2)) inclusive 3 (jan 3)
                         (initial (jan 1))))) 0 = Some q /\
    req_start q = jan 1 /\ req_end q = jan 2 /\
    req_start q <= req_now q /\ req_end q <= req_now q.
Proof.
  exists (mkRequest (jan 1) (jan 2) (jan 2) (inclusive 0 (jan 1) (jan 2))).
  assert (H : nth_error
      (sent (state_of (iterate (ticking (jan 2)) inclusive 3 (jan 3)
                         (initial (jan 1))))) 0
      = Some (mkRequest (jan 1) (jan 2) (jan 2) (inclusive 0 (jan 1) (jan 2))))
    by (vm_compute; reflexivity).
  destruct (future_data_guard (ticking (jan 2)) inclusive (jan 3))
    as [_ [Hlog _]].
  destruct (Hlog 3%nat (jan 1) 0%nat _ H) as [_ [Hs He]].
  repeat split; assumption.
Defined.

(** The rows fetched from the [inclusive] provider are in order, and two of
    them share a timestamp. *)
Lemma fetch_returns_repeated_timestamps :
  exists out,
    fetch_coinbase_data parse_digits (ticking (jan 10)) inclusive 3
      (jan 1) (jan 3) = Some out /\
    ~ (ascending out /\ unique_timestamps out).
Proof.
  eexists. split; [apply inclusive_fetch|].
  unfold unique_timestamps. simpl. intros [_ H].
  apply NoDup_cons_iff in H. destruct H as [_ H].
  apply NoDup_cons_iff in H. destruct H as [H _].
  apply H. now left.
Qed.

Lemma fetch_coinbase_data_ascending_witness :
  ascending [row_at (jan 1) 100; row_at (jan 2) 100;
             row_at (jan 2) 100; row_at (jan 3) 100].
Proof.
  apply (fetch_coinbase_data_ascending parse_digits (ticking (jan 10))
           inclusive 3 (jan 1) (jan 3)).
  vm_compute. reflexivity.
Defined.

Lemma resume_start_witness :
  main_start_dt (Table [row_at (jan 1) 100; row_at (jan 2) 100])
  = datetime_utc 2025 1 2 0 5.
Proof.
  destruct (@resume_start Z) as [H _].
  rewrite (H [row_at (jan 1) 100; row_at (jan 2) 100] (jan 2)).
  - reflexivity.
  - simpl. tauto.
  - intros r [<-|[<-|[]]]; vm_compute; discriminate.
Defined.

Lemma partition_coverage_witness :
  exists st,
    fetch_loop (ticking (jan 10)) inclusive 3 (jan 1) (jan 3) = Some st /\
    boundaries (sent st) = [(jan 1, jan 2); (jan 2, jan 3)].
Proof.
  apply (partition_coverage (ticking (jan 10)) inclusive 3).
  - intros k. unfold ticking.
    assert (datetime_utc 2025 1 3 0 0 <= jan 10) by (vm_compute; discriminate).
    lia.
  - intros k s e. eexists. reflexivity.
  - lia.
Defined.



(** * The further properties on the sample runs *)

Lemma merge_existing_store_invariant_witness :
  exists merged,
    update_dataset (Table [row_at (jan 2) 100; row_at (jan 1) 100])
                   [row_at (jan 1) 999; row_at (jan 3) 100]
      = Some (Table merged, merged) /\
    ascending merged /\ unique_timestamps merged.
Proof.
  apply (merge_existing_store_invariant
           [row_at (jan 2) 100; row_at (jan 1) 100]
           [row_at (jan 1) 999; row_at (jan 3) 100]).
  discriminate.
Defined.

Lemma merge_timestamps_union_witness :
  In (jan 3) (timestamps [row_at (jan 1) 100; row_at (jan 2) 100;
                          row_at (jan 3) 100]).
Proof.
  destruct (merge_timestamps_union
              [row_at (jan 2) 100; row_at (jan 1) 100]
              [row_at (jan 1) 999; row_at (jan 3) 100]
              [row_at (jan 1) 100; row_at (jan 2) 100; row_at (jan 3) 100])
    as [H _].
  apply H; [vm_compute; reflexivity|].
  right. right. left. reflexivity.
Defined.

Lemma merge_rows_from_inputs_witness :
  In (row_at (jan 3) 100)
     [row_at (jan 1) 100; row_at (jan 2) 100; row_at (jan 3) 100].
Proof.
  destruct (merge_rows_from_inputs
              [row_at (jan 2) 100; row_at (jan 1) 100]
              [row_at (jan 1) 999; row_at (jan 3) 100]
              [row_at (jan 1) 100; row_at (jan 2) 100; row_at (jan 3) 100])
    as [_ H]; [vm_compute; reflexivity | discriminate |].
  apply H; [|vm_compute; reflexivity].
  intros [E|[E|[]]]; vm_compute in E; discriminate E.
Defined.

Lemma merge_row_count_witness :
  List.length [row_at (jan 1) 100; row_at (jan 2) 100; row_at (jan 3) 100]
  = List.length
      (nodup Z.eq_dec
         (timestamps ([row_at (jan 2) 100; row_at (jan 1) 100]
                      ++ [row_at (jan 1) 999; row_at (jan 3) 100]))).
Proof.
  destruct (merge_row_count
              [row_at (jan 2) 100; row_at (jan 1) 100]
              [row_at (jan 1) 999; row_at (jan 3) 100]
              [row_at (jan 1) 100; row_at (jan 2) 100; row_at (jan 3) 100])
    as [H _]; [vm_compute; reflexivity | discriminate |].
  exact H.
Defined.

Lemma merge_idempotent_existing_witness :
  update_dataset
    (Table [row_at (jan 1) 100; row_at (jan 2) 100; row_at (jan 3) 100])
    [row_at (jan 1) 999; row_at (jan 3) 100]
  = Some (Table [row_at (jan 1) 100; row_at (jan 2) 100; row_at (jan 3) 100],
          [row_at (jan 1) 100; row_at (jan 2) 100; row_at (jan 3) 100]).
Proof.
  apply (merge_idempotent_existing
           [row_at (jan 2) 100; row_at (jan 1) 100]).
  vm_compute. reflexivity.
Defined.

Lemma merge_composes_witness :
  persisted (update_dataset
               (Table [row_at (jan 1) 100; row_at (jan 2) 100])
               [row_at (jan 3) 100; row_at (jan 2) 999])
  = persisted (update_dataset (Table [row_at (jan 1) 100])
                 ([row_at (jan 2) 100; row_at (jan 1) 999]
                  ++ [row_at (jan 3) 100; row_at (jan 2) 999])).
Proof.
  apply (merge_composes [row_at (jan 1) 100]
           [row_at (jan 2) 100; row_at (jan 1) 999]).
  vm_compute. reflexivity.
Defined.

Lemma merge_resume_point_monotone_witness :
  exists T',
    get_last_timestamp
      (Table [row_at (jan 1) 100; row_at (jan 2) 100; row_at (jan 3) 100])
      = Some T' /\
    jan 2 <= T'.
Proof.
  destruct (merge_resume_point_monotone
              [row_at (jan 2) 100; row_at (jan 1) 100]
              [row_at (jan 1) 999; row_at (jan 3) 100]
              [row_at (jan 1) 100; row_at (jan 2) 100; row_at (jan 3) 100]
              (jan 2))
    as [T' [H1 [H2 _]]]; [vm_compute; reflexivity | vm_compute; reflexivity |].
  exists T'. split; assumption.
Defined.

Lemma merge_first_write_witness :
  exists merged,
    update_dataset Missing [row_at (jan 2) 100; row_at (jan 1) 100]
      = Some (Table merged, merged) /\
    ascending merged /\
    Permutation merged [row_at (jan 2) 100; row_at (jan 1) 100].
Proof.
  destruct (merge_first_write [row_at (jan 2) 100; row_at (jan 1) 100])
    as [merged [H1 [H2 [H3 _]]]]; [discriminate|].
  exists merged. repeat split; assumption.
Defined.


Lemma requests_in_window_witness :
  let q := mkRequest (jan 2) (jan 3) (jan 10 + 1000000)
             (inclusive 1 (jan 2) (jan 3)) in
  jan 1 <= req_start q /\ req_start q < jan 3 /\ req_end q <= jan 3.
Proof.
  intros q.
  destruct (requests_in_window (ticking (jan 10)) inclusive 3
              (jan 1) (jan 3) q) as [H1 [H2 [_ [H4 _]]]].
  - vm_compute. right. left. reflexivity.
  - repeat split; assumption.
Defined.


Lemma fetch_empty_window_witness :
  fetch_coinbase_data parse_digits (ticking (jan 10)) inclusive 1
    (jan 3) (jan 1) = Some [].
Proof.
  apply (fetch_empty_window parse_digits (ticking (jan 10)) inclusive 0
           (jan 3) (jan 1)).
  vm_compute. discriminate.
Defined.


Lemma window_partition_witness :
  exists st,
    fetch_loop (ticking (jan 10)) inclusive 3 (jan 1) (jan 3) = Some st /\
    boundaries (sent st)
    = map (fun i =>
             (jan 1 + Z.of_nat i * (24 * 3600 * 1000000),
              Z.min (jan 1 + (Z.of_nat i + 1) * (24 * 3600 * 1000000))
                    (jan 3)))
          (seq 0 (chunk_count (jan 1) (jan 3))) /\
    List.length (sent st) = chunk_count (jan 1) (jan 3).
Proof.
  apply (window_partition (ticking (jan 10)) inclusive 3 (jan 1) (jan 3)).
  - intros k. unfold ticking.
    assert (jan 3 <= jan 10) by (vm_compute; discriminate). lia.
  - intros k s e. reflexivity.
  - vm_compute. lia.
  - vm_compute. lia.
Defined.

Lemma main_up_to_date_witness :
  exists d',
    main parse_digits (jan 2) (ticking (jan 2)) always_timeout 0
      (mkDisk false (Table [row_at (jan 2) 100]) Missing)
      = Some (Returned 0 d') /\
    DATA_DIR d' = true /\
    FILE_COINBASE d' = Table [row_at (jan 2) 100] /\
    FILE_COMBINED d' = Missing.
Proof.
  apply (main_up_to_date parse_digits (ticking (jan 2)) always_timeout
           (jan 2) 0 (mkDisk false (Table [row_at (jan 2) 100]) Missing)).
  vm_compute. discriminate.
Defined.

Lemma main_window_bounds_witness :
  main_end_dt (jan 20) (Table [row_at (jan 1) 100])
  - main_start_dt (Table [row_at (jan 1) 100])
  <= 7 * 24 * 3600 * 1000000.
Proof.
  destruct (main_window_bounds (jan 20) (Table [row_at (jan 1) 100]))
    as [_ [_ [H _]]]; [vm_compute; reflexivity | exact H].
Defined.

Lemma main_walks_window_witness :
  exists st r,
    fetch_loop (ticking (jan 20)) inclusive 8
      (main_start_dt (@Missing Z)) (main_end_dt (jan 20) (@Missing Z))
      = Some st /\
    (1 <= List.length (sent st) <= 7)%nat /\
    main parse_digits (jan 20) (ticking (jan 20)) inclusive 8
      (mkDisk true Missing Missing) = Some r.
Proof.
  destruct (main_walks_window parse_digits (ticking (jan 20)) inclusive
              (jan 20) 8 (mkDisk true Missing Missing))
    as [st [r [H1 [_ [H3 H4]]]]].
  - intros k. unfold ticking. lia.
  - intros k s e. reflexivity.
  - vm_compute. reflexivity.
  - lia.
  - exists st, r. repeat split; try assumption; lia.
Defined.

Lemma main_mirror_witness :
  exists d',
    main parse_digits (jan 3) (ticking (jan 3)) inclusive 3
      (mkDisk false Missing Missing) = Some (Returned 0 d') /\
    DATA_DIR d' = true /\
    FILE_COMBINED d' = FILE_COINBASE d'.
Proof.
  destruct (main parse_digits (jan 3) (ticking (jan 3)) inclusive 3
              (mkDisk false Missing Missing)) as [[code d'|d']|] eqn:E;
    try (vm_compute in E; discriminate E).
  destruct (main_mirror parse_digits (ticking (jan 3)) inclusive (jan 3) 3
              _ _ _ E) as [-> [Hd H]].
  exists d'. split; [reflexivity|]. split; [exact Hd|].
  destruct H as [[H1 H2]|[df [_ [H1 H2]]]]; rewrite H1, H2; reflexivity.
Defined.

Lemma main_raises_on_bad_store_witness :
  exists d',
    main parse_digits (jan 3) (ticking (jan 3)) inclusive 3
      (mkDisk true Unreadable Missing) = Some (Raised d') /\
    FILE_COINBASE d' = Unreadable /\
    FILE_COMBINED d' = Missing.
Proof.
  destruct (main_raises_on_bad_store parse_digits (ticking (jan 3)) inclusive
              (jan 3) 3 (mkDisk true Unreadable Missing)
              [row_at (jan 1) 100; row_at (jan 2) 100;
               row_at (jan 2) 100; row_at (jan 3) 100])
    as [_ H].
  - left. reflexivity.
  - vm_compute. reflexivity.
  - vm_compute. reflexivity.
  - discriminate.
  - exact H.
Defined.

Lemma main_keeps_timestamps_witness :
  exists d' df,
    main parse_digits (jan 3) (ticking (jan 3)) inclusive 3
      (mkDisk true (Table [row_at (jan 1) 100]) Missing)
      = Some (Returned 0 d') /\
    FILE_COINBASE d' = Table df /\
    In (jan 1) (timestamps df).
Proof.
  destruct (main parse_digits (jan 3) (ticking (jan 3)) inclusive 3
              (mkDisk true (Table [row_at (jan 1) 100]) Missing))
    as [[code d'|d']|] eqn:E;
    try (vm_compute in E; discriminate E).
  assert (code = 0) as -> by (vm_compute in E; congruence).
  destruct (main_keeps_timestamps parse_digits (ticking (jan 3)) inclusive
              (jan 3) 3 (mkDisk true (Table [row_at (jan 1) 100]) Missing)
              d' [row_at (jan 1) 100] 0 eq_refl E)
    as [df [H1 [H2 _]]].
  exists d', df. split; [reflexivity|]. split; [exact H1|].
  apply H2. left. reflexivity.
Defined.

Lemma rate_limit_storm_witness :
  exists st,
    fetch_loop (ticking (jan 10)) always_429 501 (jan 1) (jan 3) = Some st /\
    List.length (sent st) = 500%nat /\
    fetch_coinbase_data parse_digits (ticking (jan 10)) always_429 501
      (jan 1) (jan 3) = Some [].
Proof.
  destruct (rate_limit_storm parse_digits (ticking (jan 10)) always_429 501
              (jan 1) (jan 3)) as [st [H1 [H2 [_ [_ H5]]]]].
  - intros k s e. eexists. reflexivity.
  - intros k. unfold ticking.
    assert (jan 1 <= jan 10) by (vm_compute; discriminate). lia.
  - vm_compute. reflexivity.
  - lia.
  - exists st. repeat split; assumption.
Defined.

Lemma requests_never_go_back_witness :
  let q0 := mkRequest (jan 1) (jan 2) (jan 10)
              (inclusive 0 (jan 1) (jan 2)) in
  let q1 := mkRequest (jan 2) (jan 3) (jan 10 + 1000000)
              (inclusive 1 (jan 2) (jan 3)) in
  req_start q0 <= req_start q1 /\ req_end q0 <= req_start q1.
Proof.
  intros q0 q1.
  destruct (requests_never_go_back (ticking (jan 10)) inclusive 3
              (jan 1) (jan 3) 0 1 q0 q1) as [H1 H2].
  - vm_compute. reflexivity.
  - vm_compute. reflexivity.
  - lia.
  - split; [exact H1 | apply H2; reflexivity].
Defined.

Lemma main_requests_after_resume_witness :
  let q := mkRequest (jan 1 + 300000000) (jan 2 + 300000000) (jan 3)
             (inclusive 0 (jan 1 + 300000000) (jan 2 + 300000000)) in
  jan 1 + 5 * 60 * 1000000 <= req_start q /\ req_end q <= jan 3.
Proof.
  intros q.
  destruct (main_requests_after_resume (ticking (jan 3)) inclusive (jan 3) 3
              (mkDisk true (Table [row_at (jan 1) 100]) Missing)
              (jan 1) q) as [H1 [H2 _]].
  - reflexivity.
  - vm_compute. left. reflexivity.
  - split; assumption.
Defined.
